(** * Agent dashboard: history store, throttled sampling, event collection
      and attestation classification

    A shallow embedding of [server.cjs].  JavaScript values that reach the
    code are modelled as follows:
    - strings are [string] (one character per code unit);
    - numbers are integers ([Z]) in the range a double holds exactly:
      timestamps come from [Date.now()] and [created_at], and samples are
      taken to be integral and defined; fractional and non-finite numbers
      are outside the model;
    - [undefined] is [None] wherever a property read may miss;
    - a thrown exception is the [Throw] case of [result]. *)

From Stdlib Require Import List ZArith String Ascii Bool Lia.
From Stdlib Require Import Sorting.Sorted Sorting.Permutation.
From Stdlib Require Import DecimalString DecimalPos DecimalZ.
Import ListNotations.
Local Open Scope string_scope.
Local Open Scope list_scope.
Local Open Scope Z_scope.

Set Implicit Arguments.
Set Warnings "-register-all".

(* ================================================================== *)
(** ** Attestation classifier ([/api/attestations], event processing) *)
(* ================================================================== *)

Module Classifier.

(** An event as delivered by the relay subscription. *)
Record RawEvent : Type := mkEvent {
  id         : string;
  pubkey     : string;
  created_at : Z;
  tags       : list (list string);
  content    : string
}.

Inductive Direction : Type := given | received.

Definition Direction_eqb (a b : Direction) : bool :=
  match a, b with
  | given, given | received, received => true
  | _, _ => false
  end.

Record Attestation : Type := mkAttestation {
  att_id    : string;
  from      : string;
  to        : option string;       (* [undefined] when no "p" tag *)
  type      : option string;       (* [undefined] when no "l" tag *)
  comment   : string;
  timestamp : Z;
  direction : Direction
}.

(** [t[i] === s] on a tag [t]: an index past the end reads [undefined]. *)
Definition slot_is (t : list string) (i : nat) (s : string) : bool :=
  match nth_error t i with
  | Some x => String.eqb x s
  | None => false
  end.

(** [tags.find(pred)?.[1]] *)
Definition find_slot1 (pred : list string -> bool) (ts : list (list string))
  : option string :=
  match find pred ts with
  | Some t => nth_error t 1
  | None => None
  end.

(** [x || ''] on a possibly undefined string: the empty string is falsy and
    is replaced by the empty string, so only [undefined] changes. *)
Definition or_empty (x : option string) : string :=
  match x with
  | Some s => s
  | None => EmptyString
  end.

(** The callback of [events.map], with [me] standing for
    [nostrKeys.publicKeyHex]. *)
Definition toAttestation (me : string) (e : RawEvent) : Attestation :=
  let target := find_slot1 (fun t => slot_is t 0 "p") (tags e) in
  let ty := find_slot1 (fun t => slot_is t 0 "l" && slot_is t 2 "ai.wot") (tags e) in
  let cm := or_empty (find_slot1 (fun t => slot_is t 0 "comment") (tags e)) in
  {| att_id := id e;
     from := pubkey e;
     to := target;
     type := ty;
     comment := cm;
     timestamp := created_at e;
     direction := if String.eqb (pubkey e) me then given else received |}.

(** The comparator handed to [sort]: [(a, b) => b.timestamp - a.timestamp]. *)
Definition by_timestamp_desc (a b : Attestation) : Z :=
  timestamp b - timestamp a.

(** [Array.prototype.sort] is a stable sort: [a] is placed before [b]
    when the comparator is negative, after it when positive, and the two
    keep their order when it is zero.  It is modelled by the stable
    insertion sort, which is the only result a stable sort can produce for
    a comparator that is a consistent ordering. *)
Section Sort.
Variable A : Type.
Variable cmp : A -> A -> Z.

Fixpoint insert (x : A) (l : list A) : list A :=
  match l with
  | [] => [x]
  | y :: l' => if cmp x y <=? 0 then x :: l else y :: insert x l'
  end.

Fixpoint sort (l : list A) : list A :=
  match l with
  | [] => []
  | x :: l' => insert x (sort l')
  end.

End Sort.

Record AttestationBatch : Type := mkBatch {
  batch_received : list Attestation;
  batch_given    : list Attestation
}.

(** The handler's processing of the collected events, up to the JSON
    body passed to [res.json]. *)
Definition classify (events : list RawEvent) (me : string) : AttestationBatch :=
  let attestations := map (toAttestation me) events in
  let attestations := sort by_timestamp_desc attestations in
  {| batch_received :=
       filter (fun a => Direction_eqb (direction a) received) attestations;
     batch_given :=
       filter (fun a => Direction_eqb (direction a) given) attestations |}.

End Classifier.

(* ================================================================== *)
(** ** DVM activity ([/api/dvm], results mapping)                      *)
(* ================================================================== *)

Module Dvm.
Import Classifier.

Record DvmResult : Type := mkResult {
  res_id         : string;
  res_timestamp  : Z;
  contentPreview : string
}.

Record DvmResponse : Type := mkResponse {
  recentResults : list DvmResult;
  count         : nat
}.

(** [s.slice(0, n)]: the first [n] characters, all of [s] when it is
    shorter. *)
Definition slice0 (n : nat) (s : string) : string := substring 0 n s.

(** [content.slice(0, 100) + (content.length > 100 ? '...' : '')] *)
Definition preview (c : string) : string :=
  slice0 100 c ++ (if (100 <? String.length c)%nat then "..." else EmptyString).

Definition toResult (e : RawEvent) : DvmResult :=
  {| res_id := id e;
     res_timestamp := created_at e;
     contentPreview := preview (content e) |}.

Definition dvm_response (events : list RawEvent) : DvmResponse :=
  let results := map toResult events in
  {| recentResults := results; count := List.length results |}.

End Dvm.

(* ================================================================== *)
(** ** JSON values and the JavaScript operations the store applies     *)
(* ================================================================== *)

Module Js.

(** What [JSON.parse] can return.  An object is an association list in
    property order; [JSON.parse] never yields two fields of one name. *)
Inductive json : Type :=
| JNull
| JBool (b : bool)
| JNum (n : Z)
| JStr (s : string)
| JArr (items : list json)
| JObj (fields : list (string * json)).

(** A JavaScript value that may be [undefined]. *)
Definition jsval : Type := option json.
Definition undefined : jsval := None.

Inductive exn : Type :=
| TypeError.

Inductive result (A : Type) : Type :=
| Ok (a : A)
| Throw (e : exn).
Arguments Ok {A} a.
Arguments Throw {A} e.

Definition bind {A B : Type} (r : result A) (k : A -> result B) : result B :=
  match r with
  | Ok a => k a
  | Throw e => Throw e
  end.

Notation "x <- r ;; k" := (bind r (fun x => k))
  (at level 61, r at next level, right associativity).

(** Own property read [o.k] on the fields of an object. *)
Fixpoint get (fields : list (string * json)) (k : string) : jsval :=
  match fields with
  | [] => undefined
  | (k', v) :: rest => if String.eqb k' k then Some v else get rest k
  end.

(** Property write [o.k = v]: an existing field keeps its place, a new one
    goes last (property order of names that are not array indices). *)
Fixpoint set (fields : list (string * json)) (k : string) (v : json)
  : list (string * json) :=
  match fields with
  | [] => [(k, v)]
  | (k', v') :: rest =>
      if String.eqb k' k then (k', v) :: rest else (k', v') :: set rest k v
  end.

(** [!x] is [negb (truthy x)]. *)
Definition truthy (x : jsval) : bool :=
  match x with
  | None => false
  | Some JNull => false
  | Some (JBool b) => b
  | Some (JNum n) => negb (n =? 0)
  | Some (JStr s) => negb (String.eqb s EmptyString)
  | Some (JArr _) => true
  | Some (JObj _) => true
  end.

(** [p.k] for a field name [k] that no prototype defines and that is not
    an index or [length] (here: [timestamp], [wallet], [trust]): reading
    it from [null] throws, from a primitive or an array gives
    [undefined]. *)
Definition field_of (p : json) (k : string) : result jsval :=
  match p with
  | JNull => Throw TypeError
  | JObj fields => Ok (get fields k)
  | _ => Ok undefined
  end.

Section Coercion.
(** [ToNumber] on strings, arrays and objects is the engine's and is kept
    abstract ([None] is [NaN]). *)
Variable ToNumber_exotic : json -> option Z.

Definition to_number (x : jsval) : option Z :=
  match x with
  | None => None
  | Some JNull => Some 0
  | Some (JBool b) => Some (if b then 1 else 0)
  | Some (JNum n) => Some n
  | Some v => ToNumber_exotic v
  end.

(** [x > n] and [x < n] against a number: false when [x] is [NaN]. *)
Definition js_gt (x : jsval) (n : Z) : bool :=
  match to_number x with
  | Some t => n <? t
  | None => false
  end.

Definition js_lt (x : jsval) (n : Z) : bool :=
  match to_number x with
  | Some t => t <? n
  | None => false
  end.

(** [String(x - 1)] as a property key, for [w[w.length - 1]]. *)
Definition pred_key (x : jsval) : string :=
  match to_number x with
  | Some n => DecimalString.NilZero.string_of_int (Z.to_int (n - 1))
  | None => "NaN"
  end.

(** [arr.filter(keep)] with a callback that may throw: elements are
    visited in order and the first exception aborts the call. *)
Fixpoint filterM (keep : json -> result bool) (l : list json)
  : result (list json) :=
  match l with
  | [] => Ok []
  | p :: rest =>
      b <- keep p ;;
      rest' <- filterM keep rest ;;
      Ok (if b then p :: rest' else rest')
  end.

(** [w[w.length - 1]] for a value [w] that is neither [null] nor
    [undefined]. *)
Definition last_element (w : json) : jsval :=
  match w with
  | JArr items => last (map Some items) undefined
  | JStr s =>
      match String.length s with
      | O => undefined
      | S n => Some (JStr (substring n 1 s))
      end
  | JObj fields => get fields (pred_key (get fields "length"))
  | _ => undefined
  end.

End Coercion.

End Js.

(* ================================================================== *)
(** ** A reference [JSON.stringify(v, null, 2)] and [JSON.parse]       *)
(* ================================================================== *)

(** The store is verified against an arbitrary printer and parser (see
    [Section Store]); this executable pair covers null, booleans,
    integers, strings with the short escapes, arrays and objects, and is
    what the concrete examples run on. *)
Module JsonText.
Import Js.
Local Open Scope string_scope.

Definition dq : ascii := "034"%char.
Definition bs : ascii := "092"%char.
Definition lf : ascii := "010"%char.
Definition str1 (c : ascii) : string := String c EmptyString.

Fixpoint escape (s : string) : string :=
  match s with
  | EmptyString => EmptyString
  | String c rest =>
      (if Ascii.eqb c dq then String bs (str1 dq)
       else if Ascii.eqb c bs then String bs (str1 bs)
       else if Ascii.eqb c lf then String bs "n"
       else if Ascii.eqb c "009"%char then String bs "t"
       else if Ascii.eqb c "013"%char then String bs "r"
       else str1 c) ++ escape rest
  end.

Definition quote (s : string) : string := str1 dq ++ escape s ++ str1 dq.

Fixpoint pad (n : nat) : string :=
  match n with
  | O => EmptyString
  | S n' => String " "%char (pad n')
  end.

Definition print_num (n : Z) : string :=
  DecimalString.NilZero.string_of_int (Z.to_int n).

(** Pretty printer with an indent of two spaces per level. *)
Fixpoint stringify_at (ind : nat) (v : json) : string :=
  let sep := String "," (str1 lf) ++ pad (2 + ind)%nat in
  match v with
  | JNull => "null"
  | JBool true => "true"
  | JBool false => "false"
  | JNum n => print_num n
  | JStr s => quote s
  | JArr [] => "[]"
  | JArr (x :: xs) =>
      "[" ++ str1 lf ++ pad (2 + ind)%nat ++ stringify_at (2 + ind)%nat x
      ++ (fix more (l : list json) : string :=
            match l with
            | [] => EmptyString
            | y :: l' => sep ++ stringify_at (2 + ind)%nat y ++ more l'
            end) xs
      ++ str1 lf ++ pad ind ++ "]"
  | JObj [] => "{}"
  | JObj ((k, x) :: xs) =>
      "{" ++ str1 lf ++ pad (2 + ind)%nat ++ quote k ++ ": "
      ++ stringify_at (2 + ind)%nat x
      ++ (fix more (l : list (string * json)) : string :=
            match l with
            | [] => EmptyString
            | (k', y) :: l' =>
                sep ++ quote k' ++ ": " ++ stringify_at (2 + ind)%nat y ++ more l'
            end) xs
      ++ str1 lf ++ pad ind ++ "}"
  end.

Definition stringify (v : json) : string := stringify_at 0 v.

Definition is_ws (c : ascii) : bool :=
  Ascii.eqb c " " || Ascii.eqb c lf || Ascii.eqb c "009" || Ascii.eqb c "013".

Fixpoint skip_ws (s : string) : string :=
  match s with
  | String c rest => if is_ws c then skip_ws rest else s
  | EmptyString => s
  end.

(** The body of a string literal, after its opening quote. *)
Fixpoint read_string (s : string) : option (string * string) :=
  match s with
  | EmptyString => None
  | String c rest =>
      if Ascii.eqb c dq then Some (EmptyString, rest)
      else if Ascii.eqb c bs then
        match rest with
        | String e rest' =>
            let unescaped :=
              if Ascii.eqb e dq then Some dq
              else if Ascii.eqb e bs then Some bs
              else if Ascii.eqb e "/" then Some "/"%char
              else if Ascii.eqb e "n" then Some lf
              else if Ascii.eqb e "t" then Some "009"%char
              else if Ascii.eqb e "r" then Some "013"%char
              else None in
            match unescaped, read_string rest' with
            | Some u, Some (body, after) => Some (String u body, after)
            | _, _ => None
            end
        | EmptyString => None
        end
      else if (nat_of_ascii c <? 32)%nat then None
      else
        match read_string rest with
        | Some (body, after) => Some (String c body, after)
        | None => None
        end
  end.

Definition is_digit (c : ascii) : bool :=
  (48 <=? nat_of_ascii c)%nat && (nat_of_ascii c <=? 57)%nat.

Fixpoint read_digits (s : string) : string * string :=
  match s with
  | String c rest =>
      if is_digit c then
        let (ds, after) := read_digits rest in (String c ds, after)
      else (EmptyString, s)
  | EmptyString => (EmptyString, s)
  end.

(** An integer literal: no leading zero, no fraction, no exponent. *)
Definition read_number (s : string) : option (Z * string) :=
  let (neg, s') :=
    match s with
    | String "-" rest => (true, rest)
    | _ => (false, s)
    end in
  let (ds, after) := read_digits s' in
  let well_formed :=
    match ds with
    | EmptyString => false
    | String "0" (String _ _) => false
    | _ => true
    end in
  let stops :=
    match after with
    | String c _ => negb (Ascii.eqb c "." || Ascii.eqb c "e" || Ascii.eqb c "E")
    | EmptyString => true
    end in
  if well_formed && stops then
    match DecimalString.NilZero.int_of_string ds with
    | Some d => Some (if neg then - Z.of_int d else Z.of_int d, after)
    | None => None
    end
  else None.

Fixpoint read_value (fuel : nat) (s : string) {struct fuel}
  : option (json * string) :=
  match fuel with
  | O => None
  | S fuel' =>
      match skip_ws s with
      | String "n" (String "u" (String "l" (String "l" r))) => Some (JNull, r)
      | String "t" (String "r" (String "u" (String "e" r))) =>
          Some (JBool true, r)
      | String "f" (String "a" (String "l" (String "s" (String "e" r)))) =>
          Some (JBool false, r)
      | String "[" r =>
          match skip_ws r with
          | String "]" r' => Some (JArr [], r')
          | _ => read_items fuel' r []
          end
      | String "{" r =>
          match skip_ws r with
          | String "}" r' => Some (JObj [], r')
          | _ => read_members fuel' r []
          end
      | String c r =>
          if Ascii.eqb c dq then
            match read_string r with
            | Some (body, after) => Some (JStr body, after)
            | None => None
            end
          else
            match read_number (String c r) with
            | Some (n, after) => Some (JNum n, after)
            | None => None
            end
      | EmptyString => None
      end
  end
with read_items (fuel : nat) (s : string) (acc : list json) {struct fuel}
  : option (json * string) :=
  match fuel with
  | O => None
  | S fuel' =>
      match read_value fuel' s with
      | Some (v, r) =>
          match skip_ws r with
          | String "," r' => read_items fuel' r' (acc ++ [v])
          | String "]" r' => Some (JArr (acc ++ [v]), r')
          | _ => None
          end
      | None => None
      end
  end
with read_members (fuel : nat) (s : string) (acc : list (string * json))
  {struct fuel} : option (json * string) :=
  match fuel with
  | O => None
  | S fuel' =>
      match skip_ws s with
      | String c r =>
          if Ascii.eqb c dq then
            match read_string r with
            | Some (k, after) =>
                match skip_ws after with
                | String ":" r1 =>
                    match read_value fuel' r1 with
                    | Some (v, r2) =>
                        match skip_ws r2 with
                        | String "," r3 => read_members fuel' r3 (set acc k v)
                        | String "}" r3 => Some (JObj (set acc k v), r3)
                        | _ => None
                        end
                    | None => None
                    end
                | _ => None
                end
            | None => None
            end
          else None
      | EmptyString => None
      end
  end.

(** [JSON.parse]: [None] stands for the [SyntaxError] it throws. *)
Definition parse (s : string) : option json :=
  match read_value (2 * String.length s + 2)%nat s with
  | Some (v, r) =>
      match skip_ws r with
      | EmptyString => Some v
      | _ => None
      end
  | None => None
  end.

(** [ToNumber] of a string, an array or an object, for the examples:
    [NaN] throughout (exact for every non-numeric string and for every
    plain object). *)
Definition to_number_nan (v : json) : option Z := None.

End JsonText.

(* ================================================================== *)
(** ** History store and throttled sampling                            *)
(* ================================================================== *)

Module History.
Import Js.

(** [HISTORY_FILE] as [fs.readFileSync] sees it: [None] when the read
    throws (no file, or a file that cannot be read), otherwise its text.
    [fs.writeFileSync] is taken to succeed. *)
Definition disk : Type := option string.

(** [addHistoryPoint] is private to the server and is called with the
    two literal keys only. *)
Inductive series_key : Type := wallet | trust.

Definition key_name (k : series_key) : string :=
  match k with
  | wallet => "wallet"
  | trust => "trust"
  end.

(** [{ wallet: [], trust: [] }] *)
Definition empty_history : json :=
  JObj [("wallet", JArr []); ("trust", JArr [])].

(** [7 * 24 * 60 * 60 * 1000] and [60 * 60 * 1000] *)
Definition week : Z := 7 * 24 * 60 * 60 * 1000.
Definition hour : Z := 60 * 60 * 1000.

(** [{ timestamp: now, value }] *)
Definition point (now : Z) (value : json) : json :=
  JObj [("timestamp", JNum now); ("value", value)].

Section Store.
Variable JSON_parse : string -> option json.
Variable JSON_stringify : json -> string.
Variable ToNumber_exotic : json -> option Z.

(** [try { return JSON.parse(fs.readFileSync(...)) } catch { return {...} }] *)
Definition loadHistory (d : disk) : json :=
  match d with
  | Some text =>
      match JSON_parse text with
      | Some v => v
      | None => empty_history
      end
  | None => empty_history
  end.

(** [fs.writeFileSync(HISTORY_FILE, JSON.stringify(history, null, 2))] *)
Definition saveHistory (history : json) (d : disk) : disk :=
  Some (JSON_stringify history).

(** The filter callback [p => p.timestamp > weekAgo]. *)
Definition newer_than (weekAgo : Z) (p : json) : result bool :=
  ts <- field_of p "timestamp" ;;
  Ok (js_gt ToNumber_exotic ts weekAgo).

(** [addHistoryPoint(key, value)] run when [Date.now()] reads [now].
    By the shape of what [loadHistory] returned:
    - [null]: [history[key]] throws;
    - a boolean, number or string: [history[key]] is [undefined], the
      assignment to a property of a primitive is dropped, and
      [undefined.push] throws;
    - an array: the series becomes a named property of the array, which
      [JSON.stringify] leaves out, so the array is written back as it was;
    - an object: the series is created when the field is falsy, must be
      an array for [push] to exist, and is filtered after the push. *)
Definition addHistoryPoint (key : series_key) (value : json) (now : Z)
    (d : disk) : result disk :=
  let history := loadHistory d in
  let k := key_name key in
  let weekAgo := now - week in
  match history with
  | JNull => Throw TypeError
  | JBool _ | JNum _ | JStr _ => Throw TypeError
  | JArr items => Ok (saveHistory (JArr items) d)
  | JObj fields =>
      let fields1 :=
        if truthy (get fields k) then fields else set fields k (JArr []) in
      match get fields1 k with
      | Some (JArr series) =>
          kept <- filterM (newer_than weekAgo) (series ++ [point now value]) ;;
          Ok (saveHistory (JObj (set fields1 k (JArr kept))) d)
      | _ => Throw TypeError
      end
  end.

(** [history.K?.[history.K.length - 1]] for [K] the series key. *)
Definition lastPoint (key : series_key) (history : json) : result jsval :=
  w <- field_of history (key_name key) ;;
  match w with
  | None | Some JNull => Ok undefined
  | Some w' => Ok (last_element ToNumber_exotic w')
  end.

(** [!last || last.timestamp < hourAgo] *)
Definition due (lastP : jsval) (hourAgo : Z) : result bool :=
  match lastP with
  | Some p =>
      if truthy lastP then
        ts <- field_of p "timestamp" ;;
        Ok (js_lt ToNumber_exotic ts hourAgo)
      else Ok true
  | None => Ok true
  end.

(** The block both [/api/wallet] and [/api/trust] run to record a
    sample, throttled to one per hour.  [Date.now()] is read twice: [now]
    for the check, [now'] inside [addHistoryPoint]. *)
Definition track (key : series_key) (value : json) (now now' : Z)
    (d : disk) : result disk :=
  let history := loadHistory d in
  lastP <- lastPoint key history ;;
  let hourAgo := now - hour in
  go <- due lastP hourAgo ;;
  if go then addHistoryPoint key value now' d else Ok d.

(** [/api/wallet] records [balance.balanceSats]. *)
Definition track_wallet (balanceSats : json) (now now' : Z) (d : disk)
  : result disk :=
  track wallet balanceSats now now' d.

(** [/api/trust] records [data.score] when it is not [undefined]. *)
Definition track_trust (score : jsval) (now now' : Z) (d : disk)
  : result disk :=
  match score with
  | Some v => track trust v now now' d
  | None => Ok d
  end.

(** What a reader of the snapshot file gets, whitespace aside: the parsed
    value, or nothing when there is no readable, well-formed file. *)
Definition disk_content (d : disk) : option json :=
  match d with
  | Some text => JSON_parse text
  | None => None
  end.

End Store.

(** The timestamp of a well-formed point. *)
Definition timestamp_of (p : json) : option Z :=
  match p with
  | JObj fields =>
      match get fields "timestamp" with
      | Some (JNum t) => Some t
      | _ => None
      end
  | _ => None
  end.

(** The series stored under a name, when the mapping is an object and
    the field an array. *)
Definition series_of (history : json) (name : string) : option (list json) :=
  match history with
  | JObj fields =>
      match get fields name with
      | Some (JArr l) => Some l
      | _ => None
      end
  | _ => None
  end.

(** The series a sample is pushed onto: the array under the field, or a
    fresh empty array when the field is missing or falsy.  A truthy field
    that is not an array has no [push]. *)
Definition current_series (x : jsval) : option (list json) :=
  match x with
  | Some (JArr l) => Some l
  | _ => if truthy x then None else Some []
  end.

Definition is_point (p : json) : bool :=
  match timestamp_of p with
  | Some _ => true
  | None => false
  end.

(** The points of a well-formed series that are newer than [weekAgo]. *)
Definition retained (weekAgo : Z) (l : list json) : list json :=
  filter (fun p =>
            match timestamp_of p with
            | Some t => weekAgo <? t
            | None => false
            end) l.

(** Whether the last point of a series is at most an hour older than [t]. *)
Definition fresh (t : Z) (l : list json) : bool :=
  match last (map timestamp_of l) None with
  | Some t0 => t - hour <=? t0
  | None => false
  end.

(** [typeof v === 'object' && v !== null]: arrays are objects. *)
Definition is_object (v : json) : bool :=
  match v with
  | JArr _ | JObj _ => true
  | _ => false
  end.

End History.

(* ================================================================== *)
(** ** Event collector (the collection Promise of [/api/attestations]
       and [/api/dvm])                                                 *)
(* ================================================================== *)

Module Collector.
Import Classifier.

(** The state the three callbacks share. *)
Record state : Type := mkState {
  collected   : list RawEvent;          (* the [collected] array          *)
  timer_armed : bool;                   (* the 5000 ms timeout is pending *)
  closes      : nat;                    (* calls of [sub.close()] so far  *)
  resolved    : option (list RawEvent)  (* what the Promise settled with  *)
}.

Definition init : state :=
  {| collected := []; timer_armed := true; closes := 0%nat; resolved := None |}.

(** A callback invocation by the event loop. *)
Inductive callback : Type :=
| OnEvent (e : RawEvent)     (* [onevent(event)]            *)
| OnEose                     (* [oneose()]                  *)
| Timeout.                   (* the [setTimeout] callback   *)

(** [resolve(collected)]: a Promise settles once, later calls do
    nothing.  The awaiting handler resumes before any other callback
    runs, so it sees the array as it is at this moment. *)
Definition resolve (s : state) : option (list RawEvent) :=
  match resolved s with
  | Some l => Some l
  | None => Some (collected s)
  end.

(** One callback.  The timeout callback runs only while its timer is
    pending ([None] otherwise); the subscription callbacks are the
    library's to call and carry no guard of their own. *)
Definition fire (c : callback) (s : state) : option state :=
  match c with
  | OnEvent e =>
      Some {| collected := collected s ++ [e];
              timer_armed := timer_armed s;
              closes := closes s;
              resolved := resolved s |}
  | OnEose =>
      Some {| collected := collected s;
              timer_armed := false;                (* clearTimeout(timeout) *)
              closes := S (closes s);              (* sub.close()           *)
              resolved := resolve s |}             (* resolve(collected)    *)
  | Timeout =>
      if timer_armed s then
        Some {| collected := collected s;
                timer_armed := false;              (* a timer fires once    *)
                closes := S (closes s);            (* sub.close()           *)
                resolved := resolve s |}           (* resolve(collected)    *)
      else None
  end.

(** A sequence of callbacks, in the order the event loop runs them. *)
Fixpoint run (cs : list callback) (s : state) : option state :=
  match cs with
  | [] => Some s
  | c :: rest =>
      match fire c s with
      | Some s' => run rest s'
      | None => None
      end
  end.

Definition is_eose (c : callback) : bool :=
  match c with OnEose => true | _ => false end.

Definition is_timeout (c : callback) : bool :=
  match c with Timeout => true | _ => false end.

Definition is_end (c : callback) : bool := is_eose c || is_timeout c.

(** The events delivered before the first end-of-stream or timeout. *)
Fixpoint events_before_end (cs : list callback) : list RawEvent :=
  match cs with
  | [] => []
  | OnEvent e :: rest => e :: events_before_end rest
  | _ :: _ => []
  end.

Definition count (f : callback -> bool) (cs : list callback) : nat :=
  List.length (filter f cs).

End Collector.

(* ================================================================== *)
(** ** The values the reference printer and parser agree on            *)
(* ================================================================== *)

Module JsonDomain.
Import Js JsonText.

(** The characters the reference printer and parser carry in a string:
    everything from the space on, and tab, line feed and carriage return,
    which have short escapes. *)
Definition char_ok (c : ascii) : bool :=
  let n := nat_of_ascii c in
  ((32 <=? n) || (n =? 9) || (n =? 10) || (n =? 13))%nat.

Fixpoint str_ok (s : string) : bool :=
  match s with
  | EmptyString => true
  | String c rest => char_ok c && str_ok rest
  end.

(** No name occurs twice. *)
Fixpoint uniq (l : list string) : bool :=
  match l with
  | [] => true
  | k :: rest => negb (existsb (String.eqb k) rest) && uniq rest
  end.

(** The values the reference parser produces and the printer prints so
    that they parse back: strings of the characters above, objects
    without a repeated field name. *)
Fixpoint json_ok (v : json) : bool :=
  match v with
  | JStr s => str_ok s
  | JArr items => forallb json_ok items
  | JObj fields =>
      (fix fields_ok (m : list (string * json)) : bool :=
         match m with
         | [] => true
         | (k, x) :: m' => str_ok k && json_ok x && fields_ok m'
         end) fields
      && uniq (map fst fields)
  | _ => true
  end.

Definition fields_ok (m : list (string * json)) : bool :=
  forallb (fun kx => str_ok (fst kx) && json_ok (snd kx)) m.

(** Fuel that suffices to read a value back. *)
Fixpoint size (v : json) : nat :=
  match v with
  | JArr items => S (fold_right (fun x n => S (size x + n)) O items)
  | JObj fields =>
      S ((fix go (m : list (string * json)) : nat :=
            match m with
            | [] => O
            | (_, x) :: m' => S (size x + go m')
            end) fields)
  | _ => 1%nat
  end.

Definition fields_size (m : list (string * json)) : nat :=
  fold_right (fun kx n => S (size (snd kx) + n)) O m.

Definition items_size (l : list json) : nat :=
  fold_right (fun x n => S (size x + n)) O l.

(** The text after the first element of a printed array or object. *)
Fixpoint arr_more (ind : nat) (l : list json) : string :=
  match l with
  | [] => EmptyString
  | y :: l' =>
      (String "," (str1 lf) ++ pad (2 + ind)) ++ stringify_at (2 + ind) y
      ++ arr_more ind l'
  end.

Fixpoint obj_more (ind : nat) (l : list (string * json)) : string :=
  match l with
  | [] => EmptyString
  | (k, y) :: l' =>
      (String "," (str1 lf) ++ pad (2 + ind)) ++ quote k ++ ": "
      ++ stringify_at (2 + ind) y ++ obj_more ind l'
  end.

(** What may follow the digits of a number. *)
Definition num_stop (rest : string) : bool :=
  match rest with
  | EmptyString => true
  | String c _ =>
      negb (is_digit c)
      && negb (Ascii.eqb c "." || Ascii.eqb c "e" || Ascii.eqb c "E")
  end.

(** White space only; not starting with white space. *)
Fixpoint all_ws (w : string) : bool :=
  match w with
  | EmptyString => true
  | String c rest => is_ws c && all_ws rest
  end.

Definition solid (t : string) : bool :=
  match t with
  | EmptyString => true
  | String c _ => negb (is_ws c)
  end.

(** What may follow a printed value. *)
Definition delim (rest : string) : bool :=
  match rest with
  | EmptyString => true
  | String c _ => Ascii.eqb c "," || Ascii.eqb c lf
  end.

(** The text of a value, after white space and before a delimiter, is
    read back as that value. *)
Definition reads_back (v : json) : Prop :=
  forall ind w rest fuel,
    json_ok v = true -> all_ws w = true -> delim rest = true ->
    (size v <= fuel)%nat ->
    read_value fuel (w ++ stringify_at ind v ++ rest) = Some (v, rest).

End JsonDomain.

(* ================================================================== *)
(** ** Concrete inputs used by the examples                            *)
(* ================================================================== *)

Module Samples.
Import Classifier Js History.

(** The store run on the reference printer and parser. *)
Definition load := loadHistory JsonText.parse.
Definition add := addHistoryPoint JsonText.parse JsonText.stringify
                    JsonText.to_number_nan.
Definition sample := track JsonText.parse JsonText.stringify
                       JsonText.to_number_nan.
Definition content_of := disk_content JsonText.parse.

(** A snapshot text that is not JSON. *)
Definition corrupt_text : string := "{oops".

(** A compact snapshot: one trust point at time 0, value 50. *)
Definition trust_at_0 : string :=
  "{" ++ JsonText.quote "wallet" ++ ":[]," ++ JsonText.quote "trust" ++ ":[{"
  ++ JsonText.quote "timestamp" ++ ":0," ++ JsonText.quote "value" ++ ":50}]}".

(** What [trust_at_0] parses to. *)
Definition trust_at_0_fields : list (string * json) :=
  [("wallet", JArr []); ("trust", JArr [point 0 (JNum 50)])].

(** 2023-11-14T22:13:20Z in milliseconds. *)
Definition a_day : Z := 1700000000000.

(** [trust_at_0] after a wallet sample of 5 at [a_day], and after a trust
    sample of 60 at [a_day] or at 3700000 ms. *)
Definition after_wallet_sample : json :=
  JObj [("wallet", JArr [point a_day (JNum 5)]);
        ("trust", JArr [point 0 (JNum 50)])].

Definition after_trust_sample : json :=
  JObj [("wallet", JArr []); ("trust", JArr [point a_day (JNum 60)])].

Definition after_early_trust_sample : json :=
  JObj [("wallet", JArr []);
        ("trust", JArr [point 0 (JNum 50); point 3700000 (JNum 60)])].

(** A DVM result whose content is shorter than the preview length. *)
Definition short_event : RawEvent :=
  {| id := "e1"; pubkey := "me"; created_at := 1700000000;
     tags := []; content := "done" |}.

(** Three attestation events, as a relay might deliver them. *)
Definition ev (n : string) (author : string) (t : Z) : RawEvent :=
  {| id := n; pubkey := author; created_at := t;
     tags := [["L"; "ai.wot"]; ["l"; "service-quality"; "ai.wot"];
              ["p"; "me"]; ["comment"; "fast"]];
     content := EmptyString |}.

Definition three_events : list RawEvent :=
  [ev "a" "alice" 10; ev "b" "me" 30; ev "c" "bob" 10].

End Samples.

(* ================================================================== *)
(** ** Service health ([/api/services])                                *)
(* ================================================================== *)

Module Services.

(** The white space [String.prototype.trim] removes, among the characters
    a [string] here can hold: tab, line feed, vertical tab, form feed,
    carriage return, space and no-break space. *)
Definition is_js_space (c : ascii) : bool :=
  let n := nat_of_ascii c in
  ((9 <=? n) && (n <=? 13) || (n =? 32) || (n =? 160))%nat.

Fixpoint trim_start (s : string) : string :=
  match s with
  | String c rest => if is_js_space c then trim_start rest else s
  | EmptyString => EmptyString
  end.

Fixpoint trim_end (s : string) : string :=
  match s with
  | String c rest =>
      match trim_end rest with
      | EmptyString => if is_js_space c then EmptyString else String c EmptyString
      | rest' => String c rest'
      end
  | EmptyString => EmptyString
  end.

(** [s.trim()] *)
Definition trim (s : string) : string := trim_end (trim_start s).

(** The [services] array of the handler. *)
Definition services : list string :=
  ["jeletor-dvm"; "jeletor-wot-api"; "jeletor-wot-dvm"; "jeletor-writing";
   "jeletor-monitor"; "jeletor-wot-graph"].

Record ServiceStatus : Type := mkStatus {
  name    : string;
  status  : string;
  healthy : bool
}.

(** The callback of [services.map].  [execSync] of the [systemctl]
    command for a service is [probe]: [Some out] is its standard output
    when the command exits with 0, [None] is the exception it throws
    otherwise. *)
Definition service_status (probe : string -> option string) (service : string)
  : ServiceStatus :=
  match probe service with
  | Some out =>
      let output := trim out in
      {| name := service; status := output;
         healthy := String.eqb output "active" |}
  | None => {| name := service; status := "inactive"; healthy := false |}
  end.

Definition services_response (probe : string -> option string)
  : list ServiceStatus :=
  map (service_status probe) services.

End Services.

(* ================================================================== *)
(** ** Request handlers                                                *)
(* ================================================================== *)

Module Handlers.
Import Classifier Js History Collector.

(** How an awaited call of a collaborator ends: with a value, or with an
    exception whose [message] is given. *)
Inductive outcome (A : Type) : Type :=
| Resolved (a : A)
| Rejected (message : string).
Arguments Resolved {A} a.
Arguments Rejected {A} message.

(** The [error] field of a response: a literal or a collaborator's
    message, or the message of an exception of the store. *)
Inductive failure : Type :=
| Message (m : string)
| Thrown (e : exn).

(** [c?.k] on a configuration value ([null] when its file did not load),
    for a field name no prototype defines. *)
Definition opt_field (c : jsval) (k : string) : jsval :=
  match c with
  | Some (JObj fields) => get fields k
  | _ => undefined
  end.

(** What [wallet.getBalance()] resolves to; [balanceSats] is the sample. *)
Record Balance : Type := mkBalance {
  balanceSats : json;
  balance_rest : list (string * json)
}.

Inductive wallet_response : Type :=
| WalletError (f : failure)                 (* [{ error }]                  *)
| WalletBalance (balance : Balance).        (* [{ balance, currency: 'sats' }] *)

Inductive trust_response : Type :=
| TrustError (f : failure)                  (* [{ error }] *)
| TrustData (data : json).                  (* [data]      *)

Record Identity : Type := mkIdentity {
  id_name          : string;
  id_pubkey        : jsval;
  id_npub          : string;
  lightningAddress : json
}.

Inductive identity_response : Type :=
| IdentityError (m : string)
| IdentityOk (i : Identity).

Inductive attestations_response : Type :=
| AttestationsError (m : string)
| AttestationsOk (b : AttestationBatch).

Section Handlers.
Variable JSON_parse : string -> option json.
Variable JSON_stringify : json -> string.
Variable ToNumber_exotic : json -> option Z.

(** [app.get('/api/wallet')].  [call] is how [createWallet],
    [getBalance] and [close] end together.  An exception of the history
    block is caught like any other; the file is then as it was, the
    write being the last statement of [addHistoryPoint]. *)
Definition wallet_handler (walletConfig : jsval) (call : outcome Balance)
    (now now' : Z) (d : disk) : wallet_response * disk :=
  if negb (truthy (opt_field walletConfig "nwcUrl")) then
    (WalletError (Message "No wallet configured"), d)
  else
    match call with
    | Rejected m => (WalletError (Message m), d)
    | Resolved balance =>
        match track_wallet JSON_parse JSON_stringify ToNumber_exotic
                (balanceSats balance) now now' d with
        | Ok d' => (WalletBalance balance, d')
        | Throw e => (WalletError (Thrown e), d)
        end
    end.

(** [app.get('/api/trust')].  [fetched] is how [fetch] and
    [response.json()] end together. *)
Definition trust_handler (nostrKeys : jsval) (fetched : outcome json)
    (now now' : Z) (d : disk) : trust_response * disk :=
  if negb (truthy nostrKeys) then
    (TrustError (Message "No identity configured"), d)
  else
    match fetched with
    | Rejected m => (TrustError (Message m), d)
    | Resolved data =>
        match field_of data "score" with
        | Throw e => (TrustError (Thrown e), d)
        | Ok score =>
            match track_trust JSON_parse JSON_stringify ToNumber_exotic
                    score now now' d with
            | Ok d' => (TrustData data, d')
            | Throw e => (TrustError (Thrown e), d)
            end
        end
    end.

(** The configuration read at start-up:
    [let c = null; try { c = JSON.parse(fs.readFileSync(...)) } catch ...]:
    [null] when the file cannot be read or parsed. *)
Definition load_config (file : disk) : jsval :=
  match file with
  | Some text =>
      match JSON_parse text with
      | Some v => Some v
      | None => Some JNull
      end
  | None => Some JNull
  end.

(** [app.get('/api/history')] *)
Definition history_handler (d : disk) : json := loadHistory JSON_parse d.

End Handlers.

(** [app.get('/api/identity')].  [npubEncode] is the library's
    [nip19.npubEncode]; the handler has no [try], so its exception leaves
    the handler. *)
Definition identity_handler (npubEncode : jsval -> result string)
    (nostrKeys walletConfig : jsval) : result identity_response :=
  if negb (truthy nostrKeys) then Ok (IdentityError "No identity configured")
  else
    let publicKeyHex := opt_field nostrKeys "publicKeyHex" in
    npub <- npubEncode publicKeyHex ;;
    let address := opt_field walletConfig "lightningAddress" in
    Ok (IdentityOk
          {| id_name := "Jeletor";
             id_pubkey := publicKeyHex;
             id_npub := npub;
             lightningAddress :=
               match address with
               | Some a => if truthy address then a else JStr "Not configured"
               | None => JStr "Not configured"
               end |}).

(** [app.get('/api/attestations')] for a key file whose [publicKeyHex]
    is a string ([None] when no key file loaded).  [connection] is how
    [Relay.connect] ends: with the callbacks the event loop then runs, or
    with an exception.  The result is [None] while the Promise is not
    settled. *)
Definition attestations_handler (publicKeyHex : option string)
    (connection : outcome (list callback)) : option attestations_response :=
  match publicKeyHex with
  | None => Some (AttestationsError "No identity configured")
  | Some me =>
      match connection with
      | Rejected m => Some (AttestationsError m)
      | Resolved cs =>
          match run cs init with
          | Some s =>
              match resolved s with
              | Some events => Some (AttestationsOk (classify events me))
              | None => None
              end
          | None => None
          end
      end
  end.

End Handlers.

(* ================================================================== *)
(** ** Notions the invariants are stated with                          *)
(* ================================================================== *)

Module Invariants.
Import Js History.

(** The timestamps of a series of well-formed points. *)
Definition stamps (l : list json) : list Z :=
  map (fun p => match timestamp_of p with Some t => t | None => 0 end) l.

(** Any two points of the series are more than an hour apart, the later
    one stored later. *)
Definition spaced (l : list json) : Prop :=
  StronglySorted (fun a b => a + hour < b) (stamps l).

(** All events a sequence of callbacks delivers. *)
Fixpoint delivered (cs : list Collector.callback) : list Classifier.RawEvent :=
  match cs with
  | [] => []
  | Collector.OnEvent e :: rest => e :: delivered rest
  | _ :: rest => delivered rest
  end.

End Invariants.

Module MoreSamples.
Import Classifier Js History Handlers Samples.

(** A wallet configuration and a balance of 21 sats. *)
Definition wallet_config : jsval :=
  Some (JObj [("nwcUrl", JStr "nostr+walletconnect://relay");
              ("lightningAddress", JStr "me@example.com")]).

Definition balance_21 : Balance :=
  {| balanceSats := JNum 21; balance_rest := [] |}.

(** An event with a second ["p"] tag and labels of two namespaces. *)
Definition tagged_event : RawEvent :=
  {| id := "t"; pubkey := "alice"; created_at := 5;
     tags := [["e"; "x"]; ["l"; "other"; "elsewhere"]; ["p"; "bob"];
              ["l"; "work-completed"; "ai.wot"]; ["p"; "carol"]];
     content := EmptyString |}.

(** An event with no tags at all. *)
Definition bare_event : RawEvent :=
  {| id := "n"; pubkey := "alice"; created_at := 5; tags := [];
     content := EmptyString |}.

(** A trust series with two samples two hours apart. *)
Definition two_samples : list json :=
  [point 0 (JNum 50); point 7200000 (JNum 55)].

Definition two_samples_fields : list (string * json) :=
  [("wallet", JArr []); ("trust", JArr two_samples)].

Definition two_samples_disk : disk :=
  Some (JsonText.stringify (JObj two_samples_fields)).

(** A stand-in for [nip19.npubEncode]: it accepts a string key only. *)
Definition npub_of (pk : jsval) : result string :=
  match pk with
  | Some (JStr s) => Ok ("npub1" ++ s)%string
  | _ => Throw TypeError
  end.

Definition nostr_keys : jsval :=
  Some (JObj [("publicKeyHex", JStr "ab12"); ("secretKeyHex", JStr "cd34")]).

End MoreSamples.

(* ================================================================== *)
(** * Properties                                                       *)
(* ================================================================== *)

(** ** List facts shared by the proofs *)

Module ListFacts.

Lemma filter_map_comm (A B : Type) (f : A -> B) (p : B -> bool) (l : list A) :
  filter p (map f l) = map f (filter (fun x => p (f x)) l).
Proof.
  induction l as [|x l IH]; simpl; [reflexivity|].
  destruct (p (f x)); simpl; now rewrite IH.
Qed.

Lemma filter_filter_and (A : Type) (p q : A -> bool) (l : list A) :
  filter p (filter q l) = filter (fun x => q x && p x) l.
Proof.
  induction l as [|x l IH]; simpl; [reflexivity|].
  destruct (q x); simpl; [destruct (p x)|]; now rewrite IH.
Qed.

Lemma filter_swap (A : Type) (p q : A -> bool) (l : list A) :
  filter p (filter q l) = filter q (filter p l).
Proof.
  rewrite !filter_filter_and. apply filter_ext. intro x. apply andb_comm.
Qed.

Lemma filter_split_length (A : Type) (p q : A -> bool) (l : list A) :
  (forall x, q x = negb (p x)) ->
  (List.length (filter p l) + List.length (filter q l))%nat = List.length l.
Proof.
  intro Hq. induction l as [|x l IH]; simpl; [reflexivity|].
  rewrite Hq. destruct (p x); simpl; lia.
Qed.

Lemma filter_perm (A : Type) (p : A -> bool) (l l' : list A) :
  Permutation l l' -> Permutation (filter p l) (filter p l').
Proof.
  induction 1 as [|x l l' H IH|x y l|l l' l'' H1 IH1 H2 IH2]; simpl.
  - constructor.
  - destruct (p x); [now constructor | exact IH].
  - destruct (p x), (p y); try reflexivity. apply perm_swap.
  - now transitivity (filter p l').
Qed.

Lemma StronglySorted_filter (A : Type) (R : A -> A -> Prop) (p : A -> bool)
    (l : list A) :
  StronglySorted R l -> StronglySorted R (filter p l).
Proof.
  induction 1 as [|x l Hl IH Hx]; simpl; [constructor|].
  destruct (p x); [|exact IH].
  constructor; [exact IH|].
  rewrite Forall_forall in *. intros y Hy.
  apply filter_In in Hy. apply Hx. tauto.
Qed.

End ListFacts.

(** ** Attestation classifier *)

Module ClassifierSpec.
Import Classifier ListFacts Samples.

Section SortFacts.
Variable A : Type.
Variable key : A -> Z.
Variable cmp : A -> A -> Z.

(** The comparator of a descending sort on [key]. *)
Hypothesis cmp_key : forall a b, cmp a b = key b - key a.

Lemma insert_perm (x : A) (l : list A) : Permutation (insert cmp x l) (x :: l).
Proof.
  induction l as [|y l IH]; simpl; [reflexivity|].
  destruct (cmp x y <=? 0); [reflexivity|].
  rewrite IH. apply perm_swap.
Qed.

Lemma sort_perm (l : list A) : Permutation (sort cmp l) l.
Proof.
  induction l as [|x l IH]; simpl; [reflexivity|].
  rewrite insert_perm. now constructor.
Qed.

Lemma insert_sorted (x : A) (l : list A) :
  StronglySorted (fun a b => key b <= key a) l ->
  StronglySorted (fun a b => key b <= key a) (insert cmp x l).
Proof.
  induction 1 as [|y l Hl IH Hy]; simpl.
  - repeat constructor.
  - destruct (Z.leb_spec (cmp x y) 0) as [Hle|Hgt]; rewrite cmp_key in *.
    + constructor; [now constructor|].
      constructor; [lia|].
      eapply Forall_impl; [|exact Hy]. simpl. intros; lia.
    + constructor; [exact IH|].
      eapply Permutation_Forall; [symmetry; apply insert_perm|].
      constructor; [lia | exact Hy].
Qed.

Lemma sort_sorted (l : list A) :
  StronglySorted (fun a b => key b <= key a) (sort cmp l).
Proof.
  induction l as [|x l IH]; simpl; [constructor|].
  now apply insert_sorted.
Qed.

(** Elements of one key keep their order: insertion only moves [x] past
    elements of a strictly larger key. *)
Lemma insert_same_key (t : Z) (x : A) (l : list A) :
  filter (fun a => key a =? t) (insert cmp x l)
  = filter (fun a => key a =? t) (x :: l).
Proof.
  induction l as [|y l IH]; [reflexivity|].
  cbn [insert].
  destruct (Z.leb_spec (cmp x y) 0) as [Hle|Hgt]; [reflexivity|].
  rewrite cmp_key in Hgt. cbn [filter] in *. rewrite IH.
  destruct (Z.eqb_spec (key x) t), (Z.eqb_spec (key y) t);
    try reflexivity; lia.
Qed.

Lemma sort_same_key (t : Z) (l : list A) :
  filter (fun a => key a =? t) (sort cmp l) = filter (fun a => key a =? t) l.
Proof.
  induction l as [|x l IH]; [reflexivity|].
  cbn [sort]. rewrite insert_same_key. cbn [filter]. now rewrite IH.
Qed.

End SortFacts.

Lemma direction_given (me : string) (e : RawEvent) :
  Direction_eqb (direction (toAttestation me e)) given
  = String.eqb (pubkey e) me.
Proof. unfold toAttestation; simpl. now destruct (String.eqb (pubkey e) me). Qed.

Lemma direction_received (me : string) (e : RawEvent) :
  Direction_eqb (direction (toAttestation me e)) received
  = negb (String.eqb (pubkey e) me).
Proof. unfold toAttestation; simpl. now destruct (String.eqb (pubkey e) me). Qed.

(** C1: the [given] sequence holds exactly the attestations of the events
    whose pubkey is the reference identity, the [received] sequence those
    of the other events, and the two lengths add up to the number of
    events. *)
Theorem classify_partition (E : list RawEvent) (R : string) :
  Permutation (batch_given (classify E R))
    (map (toAttestation R) (filter (fun e => String.eqb (pubkey e) R) E))
  /\ Permutation (batch_received (classify E R))
       (map (toAttestation R)
          (filter (fun e => negb (String.eqb (pubkey e) R)) E))
  /\ (List.length (batch_given (classify E R))
      + List.length (batch_received (classify E R)))%nat = List.length E.
Proof.
  unfold classify; cbn [batch_given batch_received].
  pose proof (sort_perm by_timestamp_desc (map (toAttestation R) E)) as Hperm.
  repeat split.
  - etransitivity; [apply filter_perm, Hperm|].
    rewrite filter_map_comm.
    erewrite filter_ext; [reflexivity|]. intro e. apply direction_given.
  - etransitivity; [apply filter_perm, Hperm|].
    rewrite filter_map_comm.
    erewrite filter_ext; [reflexivity|]. intro e. apply direction_received.
  - rewrite filter_split_length.
    + rewrite (Permutation_length Hperm). apply length_map.
    + intros [? ? ? ? ? ? []]; reflexivity.
Qed.

(** C2: both output sequences are sorted by timestamp, newest first, and
    the attestations of one timestamp appear in the order their events
    had in the batch. *)
Theorem classify_sorted_stable (E : list RawEvent) (R : string) :
  let newest_first := StronglySorted (fun a b => timestamp b <= timestamp a) in
  newest_first (batch_received (classify E R))
  /\ newest_first (batch_given (classify E R))
  /\ (forall t,
        filter (fun a => timestamp a =? t) (batch_received (classify E R))
        = map (toAttestation R)
            (filter (fun e => negb (String.eqb (pubkey e) R)
                              && (created_at e =? t)) E))
  /\ (forall t,
        filter (fun a => timestamp a =? t) (batch_given (classify E R))
        = map (toAttestation R)
            (filter (fun e => String.eqb (pubkey e) R
                              && (created_at e =? t)) E)).
Proof.
  unfold classify; cbn [batch_given batch_received]; cbv zeta.
  assert (forall a b, by_timestamp_desc a b = timestamp b - timestamp a)
    as Hcmp by reflexivity.
  pose proof (sort_sorted timestamp by_timestamp_desc Hcmp
                (map (toAttestation R) E)) as Hs.
  pose proof (sort_same_key timestamp by_timestamp_desc Hcmp) as Hk.
  repeat split.
  - now apply StronglySorted_filter.
  - now apply StronglySorted_filter.
  - intro t. rewrite filter_swap, Hk, filter_swap, !filter_map_comm.
    rewrite filter_filter_and. f_equal. apply filter_ext. intro e.
    now rewrite direction_received.
  - intro t. rewrite filter_swap, Hk, filter_swap, !filter_map_comm.
    rewrite filter_filter_and. f_equal. apply filter_ext. intro e.
    now rewrite direction_given.
Qed.

(** Two received attestations of one timestamp stay in delivery order;
    the tags are read first match first. *)
Example classify_three_events :
  map att_id (batch_received (classify three_events "me")) = ["a"; "c"]
  /\ map att_id (batch_given (classify three_events "me")) = ["b"]
  /\ map to (batch_given (classify three_events "me")) = [Some "me"]
  /\ map type (batch_given (classify three_events "me"))
     = [Some "service-quality"]
  /\ map comment (batch_given (classify three_events "me")) = ["fast"].
Proof. repeat split. Qed.

End ClassifierSpec.

(** ** DVM activity *)

Module DvmSpec.
Import Classifier Dvm Samples.

Lemma slice0_short (n : nat) (s : string) :
  (String.length s <= n)%nat -> slice0 n s = s.
Proof.
  unfold slice0. revert n.
  induction s as [|c s IH]; intros [|n] H; simpl in *;
    try reflexivity; try lia.
  f_equal. apply IH. lia.
Qed.

Lemma append_empty_r (s : string) : (s ++ EmptyString)%string = s.
Proof. induction s as [|c s IH]; simpl; [reflexivity | now rewrite IH]. Qed.

(** For content of at most 100 characters nothing is appended: the
    preview of ["done"] is ["done"], whatever the ellipsis is taken to
    be. *)
Lemma preview_short_no_ellipsis :
  ~ (exists ellipsis : string,
       ellipsis <> EmptyString
       /\ contentPreview (toResult short_event)
          = (slice0 100 (content short_event) ++ ellipsis)%string).
Proof.
  intros [ell [Hne H]]. vm_compute in H.
  destruct ell as [|c ell]; [now apply Hne | discriminate H].
Qed.

(** C9, as the code has it: the preview is the content itself when it
    has at most 100 characters, and otherwise its first 100 characters
    followed by three dots; [count] is the number of [recentResults],
    one per collected event. *)
Theorem dvm_response_preview (events : list RawEvent) :
  recentResults (dvm_response events)
  = map (fun e =>
           {| res_id := id e;
              res_timestamp := created_at e;
              contentPreview :=
                if (String.length (content e) <=? 100)%nat then content e
                else (slice0 100 (content e) ++ "...")%string |}) events
  /\ count (dvm_response events)
     = List.length (recentResults (dvm_response events))
  /\ List.length (recentResults (dvm_response events)) = List.length events.
Proof.
  unfold dvm_response; cbn [recentResults count].
  split; [|split; [reflexivity | apply length_map]].
  apply map_ext. intro e. unfold toResult, preview. f_equal.
  destruct (Nat.leb_spec (String.length (content e)) 100) as [Hle|Hgt].
  - destruct (Nat.ltb_spec 100 (String.length (content e))); [lia|].
    rewrite slice0_short by assumption. apply append_empty_r.
  - destruct (Nat.ltb_spec 100 (String.length (content e))); [reflexivity|lia].
Qed.

End DvmSpec.

(** ** The reference printer and parser *)

Unset Implicit Arguments.

Module JsonTextFacts.
Import Js JsonText JsonDomain.

Lemma app_assoc_string (a b c : string) : ((a ++ b) ++ c = a ++ (b ++ c))%string.
Proof. induction a as [|x a IH]; simpl; [reflexivity | now rewrite IH]. Qed.

Lemma read_string_escape (s rest : string) :
  str_ok s = true ->
  read_string (escape s ++ String dq rest) = Some (s, rest).
Proof.
  induction s as [|c s IH]; intro H.
  - simpl. reflexivity.
  - cbn [str_ok] in H. apply andb_prop in H as [Hc Hs]. specialize (IH Hs).
    cbn [escape]. rewrite app_assoc_string.
    destruct (Ascii.eqb_spec c dq) as [->|Hdq];
      [cbn; rewrite IH; reflexivity|].
    destruct (Ascii.eqb_spec c bs) as [->|Hbs];
      [cbn; rewrite IH; reflexivity|].
    destruct (Ascii.eqb_spec c lf) as [->|Hlf];
      [cbn; rewrite IH; reflexivity|].
    destruct (Ascii.eqb_spec c "009"%char) as [->|Htab];
      [cbn; rewrite IH; reflexivity|].
    destruct (Ascii.eqb_spec c "013"%char) as [->|Hcr];
      [cbn; rewrite IH; reflexivity|].
    cbn [str1 append read_string].
    destruct (Ascii.eqb_spec c dq); [contradiction|].
    destruct (Ascii.eqb_spec c bs); [contradiction|].
    assert ((nat_of_ascii c <? 32)%nat = false) as ->.
    { unfold char_ok in Hc. apply Nat.ltb_ge.
      destruct (Nat.leb_spec 32 (nat_of_ascii c)); [assumption|].
      simpl in Hc. exfalso.
      assert (forall k, nat_of_ascii c = k -> c = ascii_of_nat k) as Hk
        by (intros k <-; now rewrite ascii_nat_embedding).
      rewrite !orb_true_iff, !Nat.eqb_eq in Hc.
      destruct Hc as [[Hc|Hc]|Hc]; apply Hk in Hc; auto. }
    now rewrite IH.
Qed.

Lemma read_string_ok_bound (n : nat) : forall t body after,
  (String.length t <= n)%nat ->
  read_string t = Some (body, after) -> str_ok body = true.
Proof.
  induction n as [|n IH]; intros t body after Hlen H.
  - destruct t; [discriminate | simpl in Hlen; lia].
  - destruct t as [|c t]; [discriminate|]. cbn [read_string] in H.
    cbn [String.length] in Hlen.
    destruct (Ascii.eqb c dq); [now injection H as <- _|].
    destruct (Ascii.eqb_spec c bs) as [->|Hbs].
    + destruct t as [|e t']; [discriminate|]. cbn [String.length] in Hlen.
      destruct (read_string t') as [[body' after']|] eqn:Hr.
      * assert (str_ok body' = true) as Hb
          by (apply (IH t' body' after'); [lia | exact Hr]).
        destruct (Ascii.eqb e dq); [injection H as <- _; now cbn; rewrite Hb|].
        destruct (Ascii.eqb e bs); [injection H as <- _; now cbn; rewrite Hb|].
        destruct (Ascii.eqb e "/"); [injection H as <- _; now cbn; rewrite Hb|].
        destruct (Ascii.eqb e "n"); [injection H as <- _; now cbn; rewrite Hb|].
        destruct (Ascii.eqb e "t"); [injection H as <- _; now cbn; rewrite Hb|].
        destruct (Ascii.eqb e "r"); [injection H as <- _; now cbn; rewrite Hb|].
        discriminate.
      * destruct (Ascii.eqb e dq), (Ascii.eqb e bs), (Ascii.eqb e "/"),
          (Ascii.eqb e "n"), (Ascii.eqb e "t"), (Ascii.eqb e "r");
          discriminate.
    + destruct (Nat.ltb_spec (nat_of_ascii c) 32) as [|Hge]; [discriminate|].
      destruct (read_string t) as [[body' after']|] eqn:Hr; [|discriminate].
      injection H as <- _. cbn [str_ok].
      rewrite (IH t body' after'); [|lia|exact Hr].
      unfold char_ok. apply Nat.leb_le in Hge. now rewrite Hge.
Qed.

Lemma read_string_ok (t body after : string) :
  read_string t = Some (body, after) -> str_ok body = true.
Proof. apply (read_string_ok_bound (String.length t)). lia. Qed.

(** Numbers *)

Lemma read_digits_uint (d : Decimal.uint) (rest : string) :
  num_stop rest = true ->
  read_digits (NilEmpty.string_of_uint d ++ rest)
  = (NilEmpty.string_of_uint d, rest).
Proof.
  intro Hstop. induction d; cbn [NilEmpty.string_of_uint append];
    try (cbn [read_digits]; change (is_digit _) with true; cbv iota;
         rewrite IHd; reflexivity).
  destruct rest as [|c r]; [reflexivity|]. cbn [read_digits].
  cbn [num_stop] in Hstop. apply andb_prop in Hstop as [Hd _].
  apply negb_true_iff in Hd. now rewrite Hd.
Qed.

Lemma nzhead_not_D0 (d : Decimal.uint) :
  match Decimal.nzhead d with Decimal.D0 _ => False | _ => True end.
Proof. induction d; simpl; auto. Qed.

Lemma to_uint_head (p : positive) :
  match Pos.to_uint p with
  | Decimal.Nil | Decimal.D0 _ => False
  | _ => True
  end.
Proof.
  pose proof (DecimalPos.Unsigned.to_of (Pos.to_uint p)) as H.
  rewrite DecimalPos.Unsigned.of_to in H. cbn [N.to_uint] in H.
  pose proof (DecimalPos.Unsigned.to_uint_nonzero p) as Hz.
  pose proof (nzhead_not_D0 (Pos.to_uint p)) as Hh.
  unfold Decimal.unorm in H.
  destruct (Decimal.nzhead (Pos.to_uint p)) eqn:E; rewrite H;
    try exact I; try contradiction.
Qed.

Lemma read_number_digits (c : ascii) (r rest : string) (neg : bool) :
  is_digit c = true ->
  (c = "0"%char -> r = EmptyString) ->
  read_digits (String c r ++ rest) = (String c r, rest) ->
  num_stop rest = true ->
  read_number ((if neg then "-" else EmptyString) ++ String c r ++ rest)
  = match NilZero.int_of_string (String c r) with
    | Some d => Some (if neg then - Z.of_int d else Z.of_int d, rest)
    | None => None
    end.
Proof.
  intros Hdig Hzero Hrd Hstop.
  assert (match rest with
          | String c _ =>
              negb (Ascii.eqb c "." || Ascii.eqb c "e" || Ascii.eqb c "E")
          | EmptyString => true
          end = true) as Hst.
  { destruct rest; [reflexivity|]. cbn [num_stop] in Hstop.
    now apply andb_prop in Hstop as [_ ?]. }
  assert (match String c r with
          | EmptyString => false
          | String "0" (String _ _) => false
          | _ => true
          end = true) as Hwf.
  { destruct (Ascii.eqb_spec c "0") as [->|Hne].
    - now rewrite (Hzero eq_refl).
    - destruct c as [[] [] [] [] [] [] [] []]; try reflexivity.
      now contradiction Hne. }
  assert (read_number (String c r ++ rest)
          = match NilZero.int_of_string (String c r) with
            | Some d => Some (Z.of_int d, rest)
            | None => None
            end) as Hpos.
  { unfold read_number.
    assert ((match (String c r ++ rest)%string with
             | String "-" rest0 => (true, rest0)
             | _ => (false, (String c r ++ rest)%string)
             end) = (false, (String c r ++ rest)%string)) as ->.
    { cbn [append].
      destruct c as [[] [] [] [] [] [] [] []]; try reflexivity;
        discriminate Hdig. }
    rewrite Hrd, Hwf, Hst. cbn [andb]. reflexivity. }
  destruct neg; [|exact Hpos].
  change (("-" ++ String c r ++ rest)%string)
    with (String "-" (String c r ++ rest)).
  unfold read_number. rewrite Hrd, Hwf, Hst. cbn [andb]. reflexivity.
Qed.

Lemma uint_string_head (d : Decimal.uint) :
  match d with Decimal.Nil | Decimal.D0 _ => False | _ => True end ->
  exists c r, NilEmpty.string_of_uint d = String c r
              /\ is_digit c = true /\ c <> "0"%char.
Proof.
  destruct d; try contradiction; intros _; cbn [NilEmpty.string_of_uint];
    eexists; eexists; (split; [reflexivity|]); split;
    try reflexivity; discriminate.
Qed.

Lemma read_number_print (n : Z) (rest : string) :
  num_stop rest = true ->
  read_number (print_num n ++ rest) = Some (n, rest).
Proof.
  intro Hstop. unfold print_num.
  destruct n as [|p|p]; cbn [Z.to_int NilZero.string_of_int].
  - change (NilZero.string_of_uint Decimal.zero) with "0"%string.
    pose proof (@read_number_digits "0" EmptyString rest false
                  eq_refl (fun _ => eq_refl)
                  (read_digits_uint (Decimal.D0 Decimal.Nil) rest Hstop)
                  Hstop) as H.
    cbn [append] in H |- *. rewrite H. reflexivity.
  - pose proof (to_uint_head p) as Hh.
    destruct (uint_string_head _ Hh) as (c & r & Hs & Hdig & Hne).
    assert (NilZero.string_of_uint (Pos.to_uint p)
            = NilEmpty.string_of_uint (Pos.to_uint p)) as ->
      by (destruct (Pos.to_uint p); try reflexivity; contradiction).
    pose proof (read_digits_uint (Pos.to_uint p) rest Hstop) as Hrd.
    pose proof (NilZero.isi (Decimal.Pos (Pos.to_uint p))) as Hisi.
    cbn [NilZero.string_of_int] in Hisi.
    assert (NilZero.string_of_uint (Pos.to_uint p)
            = NilEmpty.string_of_uint (Pos.to_uint p)) as Heq
      by (destruct (Pos.to_uint p); try reflexivity; contradiction).
    rewrite Heq in Hisi. rewrite Hs in *.
    pose proof (@read_number_digits c r rest false Hdig
                  (fun H => False_ind _ (Hne H)) Hrd Hstop) as H.
    cbn [append] in H |- *. rewrite H, Hisi.
    + do 2 f_equal. exact (DecimalZ.of_to (Z.pos p)).
    + intros [= E]. now apply (DecimalPos.Unsigned.to_uint_nonnil p).
    + discriminate.
  - pose proof (to_uint_head p) as Hh.
    destruct (uint_string_head _ Hh) as (c & r & Hs & Hdig & Hne).
    assert (NilZero.string_of_uint (Pos.to_uint p)
            = NilEmpty.string_of_uint (Pos.to_uint p)) as Heq
      by (destruct (Pos.to_uint p); try reflexivity; contradiction).
    rewrite Heq.
    pose proof (read_digits_uint (Pos.to_uint p) rest Hstop) as Hrd.
    pose proof (NilZero.isi (Decimal.Pos (Pos.to_uint p))) as Hisi.
    cbn [NilZero.string_of_int] in Hisi. rewrite Heq in Hisi.
    rewrite Hs in *.
    pose proof (@read_number_digits c r rest true Hdig
                  (fun H => False_ind _ (Hne H)) Hrd Hstop) as H.
    cbn [append] in H |- *. rewrite H, Hisi.
    + do 2 f_equal. exact (DecimalZ.of_to (Z.neg p)).
    + intros [= E]. now apply (DecimalPos.Unsigned.to_uint_nonnil p).
    + discriminate.
Qed.

(** Shapes *)

Lemma json_ok_obj (m : list (string * json)) :
  json_ok (JObj m) = fields_ok m && uniq (map fst m).
Proof.
  cbn [json_ok]. f_equal. unfold fields_ok.
  induction m as [|[k x] m IH]; [reflexivity|]. cbn [forallb fst snd].
  now rewrite IH.
Qed.

Lemma size_arr (l : list json) : size (JArr l) = S (items_size l).
Proof. reflexivity. Qed.

Lemma size_obj (m : list (string * json)) : size (JObj m) = S (fields_size m).
Proof.
  cbn [size]. f_equal. unfold fields_size.
  induction m as [|[k x] m IH]; [reflexivity|]. cbn [fold_right snd].
  now rewrite IH.
Qed.

Lemma stringify_arr (ind : nat) (x : json) (xs : list json) :
  stringify_at ind (JArr (x :: xs))
  = ("[" ++ str1 lf ++ pad (2 + ind) ++ stringify_at (2 + ind) x
     ++ arr_more ind xs ++ str1 lf ++ pad ind ++ "]")%string.
Proof.
  cbn [stringify_at].
  assert (forall l,
            (fix more (l : list json) : string :=
               match l with
               | [] => EmptyString
               | y :: l' =>
                   ((String "," (str1 lf) ++ pad (2 + ind))
                    ++ stringify_at (2 + ind) y ++ more l')%string
               end) l = arr_more ind l) as H.
  { induction l as [|y l IH]; [reflexivity|]. cbn [arr_more]. now rewrite IH. }
  now rewrite H.
Qed.

Lemma stringify_obj (ind : nat) (k : string) (x : json)
    (xs : list (string * json)) :
  stringify_at ind (JObj ((k, x) :: xs))
  = ("{" ++ str1 lf ++ pad (2 + ind) ++ quote k ++ ": "
     ++ stringify_at (2 + ind) x
     ++ obj_more ind xs ++ str1 lf ++ pad ind ++ "}")%string.
Proof.
  cbn [stringify_at].
  assert (forall l,
            (fix more (l : list (string * json)) : string :=
               match l with
               | [] => EmptyString
               | (k', y) :: l' =>
                   ((String "," (str1 lf) ++ pad (2 + ind))
                    ++ quote k' ++ ": " ++ stringify_at (2 + ind) y
                    ++ more l')%string
               end) l = obj_more ind l) as H.
  { induction l as [|[k' y] l IH]; [reflexivity|]. cbn [obj_more].
    now rewrite IH. }
  now rewrite H.
Qed.

(** Induction over nested values *)

Lemma json_nested_ind (P : json -> Prop) :
  P JNull -> (forall b, P (JBool b)) -> (forall n, P (JNum n)) ->
  (forall s, P (JStr s)) ->
  (forall l, Forall P l -> P (JArr l)) ->
  (forall m, Forall (fun kx => P (snd kx)) m -> P (JObj m)) ->
  forall v, P v.
Proof.
  intros Hnull Hbool Hnum Hstr Harr Hobj.
  fix IH 1. intros [| b | n | s | l | m].
  - exact Hnull.
  - apply Hbool.
  - apply Hnum.
  - apply Hstr.
  - apply Harr. induction l as [|x l IHl]; constructor; [apply IH | exact IHl].
  - apply Hobj. induction m as [|[k x] m IHm]; constructor;
      [apply IH | exact IHm].
Qed.

(** White space *)

Lemma skip_ws_solid (t : string) : solid t = true -> skip_ws t = t.
Proof.
  destruct t as [|c t]; [reflexivity|]. cbn [solid skip_ws].
  intro H. apply negb_true_iff in H. now rewrite H.
Qed.

Lemma skip_ws_app (w t : string) :
  all_ws w = true -> skip_ws (w ++ t) = skip_ws t.
Proof.
  induction w as [|c w IH]; [reflexivity|]. cbn [all_ws append skip_ws].
  intro H. apply andb_prop in H as [Hc Hw]. rewrite Hc. now apply IH.
Qed.

Lemma skip_ws_lead (w t : string) :
  all_ws w = true -> solid t = true -> skip_ws (w ++ t) = t.
Proof. intros Hw Ht. rewrite skip_ws_app by exact Hw. now apply skip_ws_solid. Qed.

Lemma all_ws_pad (n : nat) : all_ws (pad n) = true.
Proof. induction n; [reflexivity|]. cbn [pad all_ws]. now rewrite IHn. Qed.

Lemma all_ws_app (a b : string) :
  all_ws a = true -> all_ws b = true -> all_ws (a ++ b) = true.
Proof.
  induction a as [|c a IH]; [auto|]. cbn [all_ws append].
  intros H Hb. apply andb_prop in H as [Hc Ha]. rewrite Hc. now apply IH.
Qed.

Lemma all_ws_break (n : nat) : all_ws (str1 lf ++ pad n) = true.
Proof. apply all_ws_app; [reflexivity | apply all_ws_pad]. Qed.

Lemma delim_num_stop (rest : string) : delim rest = true -> num_stop rest = true.
Proof.
  destruct rest as [|c r]; [reflexivity|]. cbn [delim num_stop].
  intro H. apply orb_true_iff in H as [H|H]; apply Ascii.eqb_eq in H; subst;
    reflexivity.
Qed.

(** Dispatch of [read_value] on the first character *)

Lemma read_value_number (f : nat) (s r : string) (c : ascii) :
  skip_ws s = String c r ->
  is_digit c || Ascii.eqb c "-" = true ->
  read_value (S f) s
  = match read_number (String c r) with
    | Some (n, after) => Some (JNum n, after)
    | None => None
    end.
Proof.
  intros Hs Hc. cbn [read_value]. rewrite Hs.
  destruct c as [[] [] [] [] [] [] [] []]; try discriminate Hc; reflexivity.
Qed.

Lemma read_value_string (f : nat) (s r : string) :
  skip_ws s = String dq r ->
  read_value (S f) s
  = match read_string r with
    | Some (body, after) => Some (JStr body, after)
    | None => None
    end.
Proof. intros Hs. cbn [read_value]. rewrite Hs. reflexivity. Qed.

Lemma read_value_array (f : nat) (s r t : string) (c : ascii) :
  skip_ws s = String "[" r ->
  skip_ws r = String c t ->
  Ascii.eqb c "]" = false ->
  read_value (S f) s = read_items f r [].
Proof.
  intros Hs Hr Hc. cbn [read_value]. rewrite Hs, Hr.
  destruct c as [[] [] [] [] [] [] [] []]; try discriminate Hc; reflexivity.
Qed.

Lemma read_value_object (f : nat) (s r t : string) (c : ascii) :
  skip_ws s = String "{" r ->
  skip_ws r = String c t ->
  Ascii.eqb c "}" = false ->
  read_value (S f) s = read_members f r [].
Proof.
  intros Hs Hr Hc. cbn [read_value]. rewrite Hs, Hr.
  destruct c as [[] [] [] [] [] [] [] []]; try discriminate Hc; reflexivity.
Qed.

Lemma print_num_head (n : Z) :
  exists c r, print_num n = String c r
              /\ is_digit c || Ascii.eqb c "-" = true.
Proof.
  unfold print_num. destruct n as [|p|p]; cbn [Z.to_int NilZero.string_of_int].
  - now exists "0"%char, EmptyString.
  - pose proof (to_uint_head p) as Hh.
    destruct (uint_string_head _ Hh) as (c & r & Hs & Hdig & _).
    exists c, r. split; [|now rewrite Hdig].
    rewrite <- Hs. destruct (Pos.to_uint p); try reflexivity; contradiction.
  - eexists; eexists; split; reflexivity.
Qed.

(** Every printed value starts with a character that is neither white
    space nor a closing bracket. *)
Lemma stringify_head (ind : nat) (v : json) :
  exists c r, stringify_at ind v = String c r
              /\ is_ws c = false
              /\ Ascii.eqb c "]" = false /\ Ascii.eqb c "}" = false.
Proof.
  destruct v as [| [] | n | s | [|x xs] | [|[k x] xs]];
    try (eexists; eexists; split; [reflexivity|]; repeat split; reflexivity).
  destruct (print_num_head n) as (c & r & Hs & Hc).
  exists c, r. cbn [stringify_at]. split; [exact Hs|].
  destruct c as [[] [] [] [] [] [] [] []]; try discriminate Hc;
    repeat split; reflexivity.
Qed.

(** Round trip *)

Lemma skip_to_value (ind : nat) (v : json) (w rest : string) :
  all_ws w = true ->
  skip_ws (w ++ stringify_at ind v ++ rest) = (stringify_at ind v ++ rest)%string.
Proof.
  intro Hw. apply skip_ws_lead; [exact Hw|].
  destruct (stringify_head ind v) as (c & r & -> & Hc & _).
  cbn [append solid]. now rewrite Hc.
Qed.

Lemma items_size_cons (x : json) (l : list json) :
  items_size (x :: l) = S (size x + items_size l).
Proof. reflexivity. Qed.

Lemma fields_size_cons (k : string) (x : json) (m : list (string * json)) :
  fields_size ((k, x) :: m) = S (size x + fields_size m).
Proof. reflexivity. Qed.

Lemma reads_back_items (ind : nat) : forall xs x acc w fuel rest,
  Forall reads_back (x :: xs) ->
  forallb json_ok (x :: xs) = true ->
  all_ws w = true ->
  (items_size (x :: xs) <= fuel)%nat ->
  read_items fuel
    (w ++ stringify_at (2 + ind) x ++ arr_more ind xs
       ++ (str1 lf ++ pad ind) ++ String "]" rest) acc
  = Some (JArr (acc ++ x :: xs), rest).
Proof.
  induction xs as [|y ys IH]; intros x acc w fuel rest HP Hok Hw Hfuel.
  - cbn [forallb] in Hok. apply andb_prop in Hok as [Hx _].
    inversion HP as [|? ? Px _]; subst.
    rewrite items_size_cons in Hfuel.
    destruct fuel as [|f]; [lia|]. cbn [read_items].
    cbn [arr_more append].
    rewrite (Px (2 + ind)%nat w _ f Hx Hw); [|reflexivity|lia].
    rewrite (skip_ws_lead _ (String "]" rest) (all_ws_break ind) eq_refl).
    reflexivity.
  - cbn [forallb] in Hok. apply andb_prop in Hok as [Hx Hrest].
    inversion HP as [|? ? Px HP']; subst.
    rewrite items_size_cons in Hfuel.
    destruct fuel as [|f]; [lia|]. cbn [read_items].
    cbn [arr_more]. rewrite !app_assoc_string. cbn [append].
    rewrite (Px (2 + ind)%nat w _ f Hx Hw); [|reflexivity|lia].
    cbn [skip_ws]. change (is_ws ",") with false. cbv iota.
    replace (acc ++ x :: y :: ys) with ((acc ++ [x]) ++ y :: ys)
      by (now rewrite <- app_assoc).
    rewrite <- (IH y (acc ++ [x]) (str1 lf ++ pad (2 + ind))%string f rest
                  HP' Hrest (all_ws_break _)); [|lia].
    rewrite !app_assoc_string. reflexivity.
Qed.

Lemma quote_app (k t : string) :
  (quote k ++ t)%string = String dq (escape k ++ String dq t).
Proof.
  unfold quote. cbn [str1 append]. rewrite app_assoc_string. reflexivity.
Qed.

Lemma set_fresh (acc : list (string * json)) (k : string) (v : json) :
  existsb (String.eqb k) (map fst acc) = false ->
  set acc k v = acc ++ [(k, v)].
Proof.
  induction acc as [|[k' v'] acc IH]; [reflexivity|].
  cbn [map fst existsb set app]. intro H.
  apply orb_false_iff in H as [Hk Hacc].
  rewrite String.eqb_sym, Hk. now rewrite IH.
Qed.

Lemma uniq_app_fresh (a b : list string) (k : string) :
  uniq (a ++ k :: b) = true -> existsb (String.eqb k) a = false.
Proof.
  induction a as [|x a IH]; [reflexivity|]. cbn [app uniq existsb].
  intro H. apply andb_prop in H as [Hx Ha]. apply negb_true_iff in Hx.
  rewrite (IH Ha), orb_false_r.
  rewrite existsb_app in Hx. apply orb_false_iff in Hx as [_ Hx].
  cbn [existsb] in Hx. apply orb_false_iff in Hx as [Hx _].
  now rewrite String.eqb_sym.
Qed.

Lemma reads_back_members (ind : nat) : forall xs k x acc w fuel rest,
  Forall (fun kx => reads_back (snd kx)) ((k, x) :: xs) ->
  fields_ok ((k, x) :: xs) = true ->
  uniq (map fst acc ++ map fst ((k, x) :: xs)) = true ->
  all_ws w = true ->
  (fields_size ((k, x) :: xs) <= fuel)%nat ->
  read_members fuel
    (w ++ quote k ++ ": " ++ stringify_at (2 + ind) x ++ obj_more ind xs
       ++ (str1 lf ++ pad ind) ++ String "}" rest) acc
  = Some (JObj (acc ++ (k, x) :: xs), rest).
Proof.
  induction xs as [|[k' y] ys IH]; intros k x acc w fuel rest HP Hok Hu Hw Hfuel.
  - unfold fields_ok in Hok. cbn [forallb fst snd] in Hok.
    apply andb_prop in Hok as [Hkx _]. apply andb_prop in Hkx as [Hk Hx].
    inversion HP as [|? ? Px _]; subst. cbn [snd] in Px.
    rewrite fields_size_cons in Hfuel.
    destruct fuel as [|f]; [lia|]. cbn [read_members].
    rewrite quote_app.
    rewrite (skip_ws_lead w (String dq _) Hw eq_refl).
    change (Ascii.eqb dq dq) with true. cbv iota.
    rewrite (read_string_escape k _ Hk).
    cbn [append skip_ws]. change (is_ws ":") with false. cbv iota.
    cbn [obj_more append].
    change (String " " ?t) with (" " ++ t)%string.
    rewrite (Px (2 + ind)%nat " "%string _ f Hx eq_refl); [|reflexivity|lia].
    rewrite (skip_ws_lead _ (String "}" rest) (all_ws_break ind) eq_refl).
    cbv iota. rewrite set_fresh; [reflexivity|].
    cbn [map fst] in Hu. now apply uniq_app_fresh in Hu.
  - unfold fields_ok in Hok. cbn [forallb fst snd] in Hok.
    apply andb_prop in Hok as [Hkx Hrest]. apply andb_prop in Hkx as [Hk Hx].
    inversion HP as [|? ? Px HP']; subst. cbn [snd] in Px.
    rewrite fields_size_cons in Hfuel.
    destruct fuel as [|f]; [lia|]. cbn [read_members].
    rewrite quote_app.
    rewrite (skip_ws_lead w (String dq _) Hw eq_refl).
    change (Ascii.eqb dq dq) with true. cbv iota.
    rewrite (read_string_escape k _ Hk).
    cbn [append skip_ws]. change (is_ws ":") with false. cbv iota.
    cbn [obj_more]. rewrite !app_assoc_string. cbn [append].
    change (String " " ?t) with (" " ++ t)%string.
    rewrite (Px (2 + ind)%nat " "%string _ f Hx eq_refl); [|reflexivity|lia].
    cbn [skip_ws]. change (is_ws ",") with false. cbv iota.
    assert (existsb (String.eqb k) (map fst acc) = false) as Hfresh
      by (cbn [map fst] in Hu; now apply uniq_app_fresh in Hu).
    rewrite (set_fresh acc k x Hfresh).
    replace (acc ++ (k, x) :: (k', y) :: ys)
      with ((acc ++ [(k, x)]) ++ (k', y) :: ys)
      by (now rewrite <- app_assoc).
    rewrite <- (IH k' y (acc ++ [(k, x)]) (str1 lf ++ pad (2 + ind))%string
                  f rest HP' Hrest); [| |apply all_ws_break|lia].
    + rewrite !app_assoc_string. reflexivity.
    + rewrite map_app. cbn [map fst]. rewrite <- app_assoc. exact Hu.
Qed.

Lemma reads_back_all (v : json) : reads_back v.
Proof.
  induction v using json_nested_ind;
    intros ind w rest fuel Hok Hw Hd Hfuel;
    (destruct fuel as [|f]; [cbn in Hfuel; lia|]).
  - cbn [read_value]. rewrite skip_to_value by exact Hw. reflexivity.
  - cbn [read_value]. rewrite skip_to_value by exact Hw. now destruct b.
  - destruct (print_num_head n) as (c & r & Hs & Hc).
    rewrite (@read_value_number f _ (r ++ rest) c).
    + change (String c (r ++ rest)) with (String c r ++ rest)%string.
      rewrite <- Hs. rewrite read_number_print; [reflexivity|].
      now apply delim_num_stop.
    + rewrite skip_to_value by exact Hw. cbn [stringify_at]. now rewrite Hs.
    + exact Hc.
  - rewrite (@read_value_string f _ (escape s ++ String dq rest)).
    + now rewrite read_string_escape.
    + rewrite skip_to_value by exact Hw. cbn [stringify_at]. apply quote_app.
  - destruct l as [|x xs].
    + cbn [read_value]. rewrite skip_to_value by exact Hw. reflexivity.
    + rewrite size_arr in Hfuel.
      assert ((stringify_at ind (JArr (x :: xs)) ++ rest)%string
              = String "["
                  ((str1 lf ++ pad (2 + ind)) ++ stringify_at (2 + ind) x
                   ++ arr_more ind xs ++ (str1 lf ++ pad ind)
                   ++ String "]" rest)) as Htext.
      { rewrite stringify_arr. cbn [append]. rewrite !app_assoc_string.
        reflexivity. }
      destruct (stringify_head (2 + ind) x) as (c & t & Hx & Hc & Hclose & _).
      assert (skip_ws (w ++ stringify_at ind (JArr (x :: xs)) ++ rest)
              = String "["
                  ((str1 lf ++ pad (2 + ind)) ++ stringify_at (2 + ind) x
                   ++ arr_more ind xs ++ (str1 lf ++ pad ind)
                   ++ String "]" rest)) as Hs
        by (rewrite skip_to_value by exact Hw; exact Htext).
      assert (skip_ws ((str1 lf ++ pad (2 + ind)) ++ stringify_at (2 + ind) x
                       ++ arr_more ind xs ++ (str1 lf ++ pad ind)
                       ++ String "]" rest)
              = String c (t ++ arr_more ind xs ++ (str1 lf ++ pad ind)
                          ++ String "]" rest)) as Hr.
      { rewrite skip_ws_lead; [now rewrite Hx|apply all_ws_break|].
        rewrite Hx. cbn [append solid]. now rewrite Hc. }
      rewrite (read_value_array f _ _ _ _ Hs Hr Hclose).
      apply (reads_back_items ind xs x [] _ f rest); try assumption.
      * apply all_ws_break.
      * lia.
  - destruct m as [|[k x] xs].
    + cbn [read_value]. rewrite skip_to_value by exact Hw. reflexivity.
    + rewrite size_obj in Hfuel. rewrite json_ok_obj in Hok.
      apply andb_prop in Hok as [Hfields Hu].
      assert ((stringify_at ind (JObj ((k, x) :: xs)) ++ rest)%string
              = String "{"
                  ((str1 lf ++ pad (2 + ind)) ++ quote k ++ ": "
                   ++ stringify_at (2 + ind) x
                   ++ obj_more ind xs ++ (str1 lf ++ pad ind)
                   ++ String "}" rest)) as Htext.
      { rewrite stringify_obj, !app_assoc_string. reflexivity. }
      assert (skip_ws (w ++ stringify_at ind (JObj ((k, x) :: xs)) ++ rest)
              = String "{"
                  ((str1 lf ++ pad (2 + ind)) ++ quote k ++ ": "
                   ++ stringify_at (2 + ind) x
                   ++ obj_more ind xs ++ (str1 lf ++ pad ind)
                   ++ String "}" rest)) as Hs
        by (rewrite skip_to_value by exact Hw; exact Htext).
      assert (skip_ws ((str1 lf ++ pad (2 + ind)) ++ quote k ++ ": "
                       ++ stringify_at (2 + ind) x
                       ++ obj_more ind xs ++ (str1 lf ++ pad ind)
                       ++ String "}" rest)
              = String dq
                  (escape k ++ String dq
                     (": " ++ stringify_at (2 + ind) x ++ obj_more ind xs
                      ++ (str1 lf ++ pad ind) ++ String "}" rest))) as Hr.
      { rewrite skip_ws_lead; [apply quote_app|apply all_ws_break|].
        now rewrite quote_app. }
      rewrite (read_value_object f _ _ _ _ Hs Hr eq_refl).
      apply (reads_back_members ind xs k x [] _ f rest); try assumption.
      * apply all_ws_break.
      * lia.
Qed.

(** Fuel *)

Lemma length_app_str (a b : string) :
  String.length (a ++ b) = (String.length a + String.length b)%nat.
Proof. induction a as [|c a IH]; simpl; [reflexivity | now rewrite IH]. Qed.

Lemma size_le_length (v : json) :
  forall ind, (size v <= String.length (stringify_at ind v))%nat.
Proof.
  induction v using json_nested_ind; intro ind.
  - cbn. lia.
  - destruct b; cbn; lia.
  - destruct (print_num_head n) as (c & r & Hs & _).
    cbn [size stringify_at]. rewrite Hs. cbn [String.length]. lia.
  - cbn [size stringify_at]. unfold quote. rewrite length_app_str.
    cbn [str1 String.length]. lia.
  - destruct l as [|x xs]; [cbn; lia|].
    rewrite size_arr, stringify_arr, !length_app_str. cbn [String.length str1].
    rewrite items_size_cons.
    inversion H as [|? ? Hx Hxs]; subst. specialize (Hx (2 + ind)%nat).
    assert (items_size xs <= String.length (arr_more ind xs))%nat as Hmore.
    { clear Hx H. induction xs as [|y ys IH]; [cbn; lia|].
      inversion Hxs as [|? ? Hy Hys]; subst. specialize (Hy (2 + ind)%nat).
      specialize (IH Hys). rewrite items_size_cons. cbn [arr_more].
      rewrite !length_app_str. cbn [String.length str1]. lia. }
    lia.
  - destruct m as [|[k x] xs]; [cbn; lia|].
    rewrite size_obj, stringify_obj, !length_app_str. cbn [String.length str1].
    rewrite fields_size_cons.
    inversion H as [|? ? Hx Hxs]; subst. cbn [snd] in Hx.
    specialize (Hx (2 + ind)%nat).
    assert (fields_size xs <= String.length (obj_more ind xs))%nat as Hmore.
    { clear Hx H. induction xs as [|[k' y] ys IH]; [cbn; lia|].
      inversion Hxs as [|? ? Hy Hys]; subst. cbn [snd] in Hy.
      specialize (Hy (2 + ind)%nat).
      specialize (IH Hys). rewrite fields_size_cons. cbn [obj_more].
      rewrite !length_app_str. cbn [String.length str1]. lia. }
    lia.
Qed.

Lemma append_nil_r (s : string) : (s ++ EmptyString)%string = s.
Proof. induction s as [|c s IH]; simpl; [reflexivity | now rewrite IH]. Qed.

(** The printer's text parses back to the value printed. *)
Lemma parse_stringify (v : json) :
  json_ok v = true -> parse (stringify v) = Some v.
Proof.
  intro Hok. unfold parse, stringify.
  pose proof (reads_back_all v 0%nat EmptyString EmptyString
                (2 * String.length (stringify_at 0 v) + 2)%nat
                Hok eq_refl eq_refl) as H.
  cbn [append] in H. rewrite append_nil_r in H.
  rewrite H; [reflexivity|].
  pose proof (size_le_length v 0%nat). lia.
Qed.

(** What the parser returns *)

Lemma fields_ok_set (acc : list (string * json)) (k : string) (v : json) :
  fields_ok acc = true -> str_ok k = true -> json_ok v = true ->
  fields_ok (set acc k v) = true.
Proof.
  unfold fields_ok. intros Hacc Hk Hv.
  induction acc as [|[k' v'] acc IH]; cbn [set forallb fst snd] in *.
  - now rewrite Hk, Hv.
  - apply andb_prop in Hacc as [Hkv Hacc].
    destruct (String.eqb_spec k' k) as [->|Hne]; cbn [forallb fst snd].
    + now rewrite Hk, Hv, Hacc.
    + now rewrite Hkv, (IH Hacc).
Qed.

Lemma keys_set (acc : list (string * json)) (k : string) (v : json) :
  map fst (set acc k v)
  = if existsb (String.eqb k) (map fst acc) then map fst acc
    else map fst acc ++ [k].
Proof.
  induction acc as [|[k' v'] acc IH]; [reflexivity|].
  cbn [set map fst existsb].
  destruct (String.eqb_spec k' k) as [->|Hne].
  - now rewrite String.eqb_refl.
  - cbn [map fst]. rewrite IH.
    destruct (String.eqb_spec k k') as [->|_]; [contradiction|].
    cbn [orb]. now destruct (existsb (String.eqb k) (map fst acc)).
Qed.

Lemma uniq_snoc (l : list string) (k : string) :
  uniq l = true -> existsb (String.eqb k) l = false -> uniq (l ++ [k]) = true.
Proof.
  induction l as [|x l IH]; [reflexivity|]. cbn [uniq existsb app].
  intros H Hk. apply andb_prop in H as [Hx Hl].
  apply orb_false_iff in Hk as [Hkx Hk].
  rewrite (IH Hl Hk), andb_true_r. apply negb_true_iff in Hx.
  rewrite existsb_app, Hx. cbn [existsb orb].
  now rewrite String.eqb_sym, Hkx.
Qed.

Lemma uniq_set (acc : list (string * json)) (k : string) (v : json) :
  uniq (map fst acc) = true -> uniq (map fst (set acc k v)) = true.
Proof.
  intro H. rewrite keys_set.
  destruct (existsb (String.eqb k) (map fst acc)) eqn:E; [exact H|].
  now apply uniq_snoc.
Qed.

Lemma json_ok_arr_snoc (acc : list json) (v : json) :
  forallb json_ok acc = true -> json_ok v = true ->
  forallb json_ok (acc ++ [v]) = true.
Proof. intros Ha Hv. rewrite forallb_app, Ha. cbn. now rewrite Hv. Qed.

Ltac crack H :=
  repeat (cbv beta iota in H;
          match type of H with
          | context [match ?x with _ => _ end] => is_var x; destruct x
          | context [Ascii.eqb ?c dq] => destruct (Ascii.eqb c dq)
          end);
  cbv beta iota in H.

Lemma read_ok (fuel : nat) :
  (forall s v r, read_value fuel s = Some (v, r) -> json_ok v = true)
  /\ (forall s acc v r,
        forallb json_ok acc = true ->
        read_items fuel s acc = Some (v, r) -> json_ok v = true)
  /\ (forall s acc v r,
        fields_ok acc = true -> uniq (map fst acc) = true ->
        read_members fuel s acc = Some (v, r) -> json_ok v = true).
Proof.
  induction fuel as [|f (IHv & IHi & IHm)].
  - repeat split; intros; discriminate.
  - split; [|split].
    + intros s v r H. cbn [read_value] in H.
      destruct (skip_ws s) as [|c t]; [discriminate|].
      destruct (skip_ws t) as [|c' t'] eqn:Et;
      crack H;
      try discriminate H;
      try (injection H as <- _; reflexivity);
      try (destruct (read_number _) as [[n a]|];
           [injection H as <- _; reflexivity | discriminate H]);
      try (match type of H with
           | context [read_string ?x] =>
               destruct (read_string x) as [[b a]|] eqn:E;
               [injection H as <- _; exact (read_string_ok _ _ _ E)
               |discriminate H]
           end);
      try (eapply IHi; [|exact H]; reflexivity);
      try (eapply IHm; [| |exact H]; reflexivity).
    + intros s acc v r Hacc H. cbn [read_items] in H.
      destruct (read_value f s) as [[v0 r0]|] eqn:E; [|discriminate].
      pose proof (IHv _ _ _ E) as Hv0.
      destruct (skip_ws r0) as [|c t]; [discriminate|].
      crack H; try discriminate H;
        first [ injection H as <- _; cbn [json_ok]; now apply json_ok_arr_snoc
              | eapply IHi; [|exact H]; now apply json_ok_arr_snoc ].
    + intros s acc v r Hacc Hu H. cbn [read_members] in H.
      destruct (skip_ws s) as [|c t]; [discriminate|].
      destruct (Ascii.eqb c dq); [|discriminate].
      destruct (read_string t) as [[k after]|] eqn:Ek; [|discriminate].
      pose proof (read_string_ok _ _ _ Ek) as Hk.
      destruct (skip_ws after) as [|c1 t1]; [discriminate|].
      destruct (read_value f t1) as [[v0 r0]|] eqn:E;
        [pose proof (IHv _ _ _ E) as Hv0|];
        (destruct (skip_ws r0) as [|c2 t2] || idtac);
        crack H; try discriminate H;
        first [ injection H as <- _; rewrite json_ok_obj;
                now rewrite fields_ok_set, uniq_set
              | eapply IHm; [| |exact H];
                [now apply fields_ok_set | now apply uniq_set] ].
Qed.

Lemma parse_ok (s : string) (v : json) :
  parse s = Some v -> json_ok v = true.
Proof.
  unfold parse. intro H.
  destruct (read_value _ s) as [[v0 r]|] eqn:E; [|discriminate].
  destruct (skip_ws r); [|discriminate]. injection H as <-.
  exact (proj1 (read_ok _) _ _ _ E).
Qed.

(** Whatever the parser accepts, the printer prints so that it parses
    back to the same value. *)
Lemma parse_print (s : string) (v : json) :
  parse s = Some v -> parse (stringify v) = Some v.
Proof. intro H. apply parse_stringify. exact (parse_ok s v H). Qed.

Lemma print_empty_history :
  parse (stringify History.empty_history) = Some History.empty_history.
Proof. apply parse_stringify. reflexivity. Qed.

End JsonTextFacts.

Set Implicit Arguments.

(** ** History store *)

Module HistorySpec.
Import Js History Samples JsonTextFacts.

Lemma get_set_same (fields : list (string * json)) (k : string) (v : json) :
  get (set fields k v) k = Some v.
Proof.
  induction fields as [|[k' v'] rest IH]; simpl.
  - now rewrite String.eqb_refl.
  - destruct (String.eqb k' k) eqn:E; simpl; rewrite E; [reflexivity | exact IH].
Qed.

Lemma get_set_other (fields : list (string * json)) (k k0 : string) (v : json) :
  k0 <> k -> get (set fields k v) k0 = get fields k0.
Proof.
  intro Hne. induction fields as [|[k' v'] rest IH]; simpl.
  - destruct (String.eqb_spec k k0); [congruence | reflexivity].
  - destruct (String.eqb_spec k' k) as [->|Hk]; simpl.
    + destruct (String.eqb_spec k k0); [congruence | reflexivity].
    + now rewrite IH.
Qed.

Lemma set_set (fields : list (string * json)) (k : string) (v w : json) :
  set (set fields k v) k w = set fields k w.
Proof.
  induction fields as [|[k' v'] rest IH]; simpl.
  - now rewrite String.eqb_refl.
  - destruct (String.eqb k' k) eqn:E; simpl; rewrite E; [reflexivity|].
    now rewrite IH.
Qed.

Lemma set_absent (fields : list (string * json)) (k : string) (v : json) :
  get fields k = None -> set fields k v = fields ++ [(k, v)].
Proof.
  induction fields as [|[k' v'] rest IH]; simpl; [reflexivity|].
  destruct (String.eqb k' k); [discriminate|]. intro H. now rewrite IH.
Qed.

Lemma week_pos : 0 < week.
Proof. reflexivity. Qed.

Lemma hour_pos : 0 < hour.
Proof. reflexivity. Qed.

Section StoreFacts.
Variable JSON_parse : string -> option json.
Variable JSON_stringify : json -> string.
Variable ToNumber_exotic : json -> option Z.

#[local] Abbreviation loadHistory := (loadHistory JSON_parse).
#[local] Abbreviation saveHistory := (saveHistory JSON_stringify).
#[local] Abbreviation addHistoryPoint :=
  (addHistoryPoint JSON_parse JSON_stringify ToNumber_exotic).
#[local] Abbreviation track := (track JSON_parse JSON_stringify ToNumber_exotic).
#[local] Abbreviation newer_than := (newer_than ToNumber_exotic).
#[local] Abbreviation disk_content := (disk_content JSON_parse).

Lemma newer_than_point (w t : Z) (p : json) :
  timestamp_of p = Some t -> newer_than w p = Ok (w <? t).
Proof.
  unfold timestamp_of, newer_than. destruct p; try discriminate.
  simpl. destruct (get fields "timestamp") as [[]|]; try discriminate.
  now intros [= ->].
Qed.

Lemma newer_than_new_point (now : Z) (v : json) :
  newer_than (now - week) (point now v) = Ok true.
Proof.
  rewrite (@newer_than_point (now - week) now (point now v)) by reflexivity.
  f_equal. apply Z.ltb_lt. pose proof week_pos. lia.
Qed.

Lemma filterM_app (keep : json -> result bool) (l1 l2 : list json) :
  filterM keep (l1 ++ l2)
  = (k1 <- filterM keep l1 ;; k2 <- filterM keep l2 ;; Ok (k1 ++ k2)).
Proof.
  induction l1 as [|p l1 IH]; simpl.
  - destruct (filterM keep l2); reflexivity.
  - destruct (keep p) as [b|]; simpl; [|reflexivity].
    rewrite IH. destruct (filterM keep l1) as [k1|]; simpl; [|reflexivity].
    destruct (filterM keep l2) as [k2|]; simpl; [|reflexivity].
    now destruct b.
Qed.

Lemma filterM_kept (keep : json -> result bool) (l kept : list json) :
  filterM keep l = Ok kept ->
  Forall (fun p => In p l /\ keep p = Ok true) kept.
Proof.
  revert kept. induction l as [|p l IH]; simpl; intros kept H.
  - injection H as <-. constructor.
  - destruct (keep p) as [b|] eqn:Hp; simpl in H; [|discriminate].
    destruct (filterM keep l) as [k|]; simpl in H; [|discriminate].
    injection H as <-.
    assert (Forall (fun q => In q (p :: l) /\ keep q = Ok true) k) as Hk.
    { eapply Forall_impl; [|apply IH; reflexivity]. simpl. tauto. }
    destruct b; [constructor; [simpl; auto | exact Hk] | exact Hk].
Qed.

Lemma filterM_points (w : Z) (l : list json) :
  forallb is_point l = true -> filterM (newer_than w) l = Ok (retained w l).
Proof.
  unfold retained. induction l as [|p l IH]; simpl; [reflexivity|].
  intro H. apply andb_prop in H as [Hp Hl]. unfold is_point in Hp.
  destruct (timestamp_of p) as [t|] eqn:Ht; [|discriminate].
  rewrite (@newer_than_point w t p Ht), (IH Hl). reflexivity.
Qed.

(** What [addHistoryPoint] does to a snapshot that is an object. *)
Lemma addHistoryPoint_object (key : series_key) (v : json) (now : Z) (d : disk)
    (fields : list (string * json)) :
  loadHistory d = JObj fields ->
  addHistoryPoint key v now d
  = match current_series (get fields (key_name key)) with
    | Some series =>
        kept <- filterM (newer_than (now - week)) series ;;
        Ok (Some (JSON_stringify
                    (JObj (set fields (key_name key)
                             (JArr (kept ++ [point now v]))))))
    | None => Throw TypeError
    end.
Proof.
  intro Hload. unfold addHistoryPoint. rewrite Hload.
  assert (forall series f1,
            (kept <- filterM (newer_than (now - week))
                       (series ++ [point now v]) ;;
             Ok (saveHistory (JObj (set f1 (key_name key) (JArr kept))) d))
            = (kept <- filterM (newer_than (now - week)) series ;;
               Ok (Some (JSON_stringify
                     (JObj (set f1 (key_name key)
                              (JArr (kept ++ [point now v])))))))) as Hpush.
  { intros series f1. rewrite filterM_app.
    assert (filterM (newer_than (now - week)) [point now v]
            = Ok [point now v]) as ->
      by (cbn [filterM]; now rewrite newer_than_new_point).
    now destruct (filterM (newer_than (now - week)) series). }
  destruct (get fields (key_name key)) as [x|] eqn:Hget.
  - destruct (truthy (Some x)) eqn:Htr.
    + rewrite Hget. unfold current_series. rewrite Htr.
      destruct x; try reflexivity. apply Hpush.
    + rewrite get_set_same, Hpush. cbn [filterM bind]. rewrite set_set.
      unfold current_series. rewrite Htr.
      destruct x; try reflexivity; discriminate.
  - cbn [truthy current_series]. rewrite get_set_same, Hpush.
    cbn [filterM bind]. now rewrite set_set.
Qed.

Lemma filterM_is_filter (keep : json -> result bool) (l kept : list json) :
  filterM keep l = Ok kept ->
  kept = filter (fun p => match keep p with Ok b => b | Throw _ => false end) l.
Proof.
  revert kept. induction l as [|p l IH]; simpl; intros kept H.
  - now injection H as <-.
  - destruct (keep p) as [b|]; simpl in H; [|discriminate].
    destruct (filterM keep l) as [k|]; simpl in H; [|discriminate].
    injection H as <-. rewrite <- (IH k eq_refl). reflexivity.
Qed.

Lemma addHistoryPoint_ok_object (key : series_key) (v : json) (now : Z)
    (d d' : disk) :
  addHistoryPoint key v now d = Ok d' -> is_object (loadHistory d) = true.
Proof.
  unfold addHistoryPoint. destruct (loadHistory d); try discriminate; reflexivity.
Qed.

(** The shape of what a completed [addHistoryPoint] wrote. *)
Lemma addHistoryPoint_written (key : series_key) (v : json) (now : Z)
    (d d' : disk) (fields : list (string * json)) :
  loadHistory d = JObj fields ->
  addHistoryPoint key v now d = Ok d' ->
  exists old kept,
    current_series (get fields (key_name key)) = Some old
    /\ filterM (newer_than (now - week)) old = Ok kept
    /\ d' = Some (JSON_stringify
                    (JObj (set fields (key_name key)
                             (JArr (kept ++ [point now v])))))
    /\ Forall (fun p => newer_than (now - week) p = Ok true)
         (kept ++ [point now v]).
Proof.
  intros Hload Hadd. rewrite (@addHistoryPoint_object key v now d _ Hload) in Hadd.
  destruct (current_series (get fields (key_name key))) as [old|];
    [|discriminate].
  destruct (filterM (newer_than (now - week)) old) as [kept|] eqn:Hf;
    [|discriminate].
  injection Hadd as <-. exists old, kept.
  split; [reflexivity|]. split; [exact Hf|]. split; [reflexivity|].
  apply Forall_app. split.
  - eapply Forall_impl; [|exact (filterM_kept _ _ Hf)]. simpl. tauto.
  - constructor; [apply newer_than_new_point | constructor].
Qed.

Lemma newer_than_true_lt (w t : Z) (p : json) :
  newer_than w p = Ok true -> timestamp_of p = Some t -> w < t.
Proof.
  intros Hn Ht. rewrite (@newer_than_point w t p Ht) in Hn.
  injection Hn as Hlt. now apply Z.ltb_lt.
Qed.

(** C6: when the snapshot file is absent, unreadable or not JSON,
    [loadHistory] returns the empty mapping [{wallet: [], trust: []}]
    (it is a total function: no exception leaves it), and the next
    [addHistoryPoint] succeeds and overwrites the file with that mapping
    plus the new point. *)
Theorem loadHistory_bad_snapshot (d : disk) :
  (d = None \/ exists text, d = Some text /\ JSON_parse text = None) ->
  loadHistory d = empty_history
  /\ forall key v now,
       addHistoryPoint key v now d
       = Ok (Some (JSON_stringify
                     (JObj (set [("wallet", JArr []); ("trust", JArr [])]
                              (key_name key) (JArr [point now v]))))).
Proof.
  intro Hbad.
  assert (loadHistory d = empty_history) as Hload.
  { destruct Hbad as [->|[text [-> Hp]]]; simpl; [reflexivity | now rewrite Hp]. }
  split; [exact Hload|]. intros key v now.
  rewrite (@addHistoryPoint_object key v now d _ Hload).
  now destruct key.
Qed.

(** C10, as the code has it: a snapshot file holding valid JSON that is
    not a mapping is returned by [loadHistory] as it is, not as the empty
    mapping.  When it is [null], a boolean, a number or a string,
    [addHistoryPoint] on it throws; when it is an array,
    [addHistoryPoint] completes without an exception, stores nothing and
    writes the array back.  [addHistoryPoint] never completes on a
    snapshot that is not an object or an array. *)
Theorem loadHistory_non_mapping (text : string) (v : json) :
  JSON_parse text = Some v ->
  (forall fields, v <> JObj fields) ->
  loadHistory (Some text) = v
  /\ loadHistory (Some text) <> empty_history
  /\ (is_object v = false ->
      forall key value now,
        addHistoryPoint key value now (Some text) = Throw TypeError)
  /\ (forall items, v = JArr items ->
      forall key value now,
        addHistoryPoint key value now (Some text)
        = Ok (Some (JSON_stringify (JArr items))))
  /\ (forall key value now d d',
        addHistoryPoint key value now d = Ok d' ->
        is_object (loadHistory d) = true).
Proof.
  intros Hp Hv.
  assert (loadHistory (Some text) = v) as Hload by (simpl; now rewrite Hp).
  split; [exact Hload|]. split; [|split; [|split]].
  - rewrite Hload. intros ->. now apply (Hv _ eq_refl).
  - intros Hprim key value now. unfold addHistoryPoint. rewrite Hload.
    destruct v; try reflexivity; discriminate Hprim.
  - intros items -> key value now. unfold addHistoryPoint. rewrite Hload.
    reflexivity.
  - intros key value now d d'. apply addHistoryPoint_ok_object.
Qed.


(** C7: on a snapshot that is a mapping, [addHistoryPoint(key, v)] at
    time [now] completes whenever the series under [key] is missing,
    falsy, or an array of well-formed points: it writes the mapping with
    the old points newer than [now - week], in their order, followed by
    [{timestamp: now, value: v}]; a missing series is created, as a new
    last field holding the one point.  And whenever it completes (also on
    a series with other elements), the series written is the old one
    filtered in order with the new point last, and no point of it has a
    timestamp at or before [now - 7*24*60*60*1000]. *)
Theorem addHistoryPoint_retention (key : series_key) (v : json) (now : Z)
    (d : disk) (fields : list (string * json)) :
  loadHistory d = JObj fields ->
  (forall old,
     current_series (get fields (key_name key)) = Some old ->
     forallb is_point old = true ->
     addHistoryPoint key v now d
     = Ok (Some (JSON_stringify
                   (JObj (set fields (key_name key)
                            (JArr (retained (now - week) old
                                   ++ [point now v])))))))
  /\ (get fields (key_name key) = None ->
      addHistoryPoint key v now d
      = Ok (Some (JSON_stringify
                    (JObj (fields ++ [(key_name key, JArr [point now v])])))))
  /\ (forall d',
        addHistoryPoint key v now d = Ok d' ->
        exists old kept written,
          current_series (get fields (key_name key)) = Some old
          /\ kept = filter (fun p => match newer_than (now - week) p with
                                     | Ok b => b
                                     | Throw _ => false
                                     end) old
          /\ d' = Some (JSON_stringify written)
          /\ series_of written (key_name key) = Some (kept ++ [point now v])
          /\ Forall (fun p => newer_than (now - week) p = Ok true)
               (kept ++ [point now v])
          /\ (forall p t, In p (kept ++ [point now v]) ->
                          timestamp_of p = Some t -> ~ t <= now - week)).
Proof.
  intros Hload. split; [|split].
  - intros old Hold Hwf.
    rewrite (@addHistoryPoint_object key v now d fields Hload), Hold.
    now rewrite (filterM_points (now - week) old Hwf).
  - intros Hnone.
    rewrite (@addHistoryPoint_object key v now d fields Hload), Hnone.
    cbn [current_series truthy filterM bind retained app].
    now rewrite (set_absent fields (key_name key) _ Hnone).
  - intros d' Hadd.
    destruct (@addHistoryPoint_written key v now d d' fields Hload Hadd)
      as (old & kept & Hold & Hf & -> & Hall).
    exists old, kept,
      (JObj (set fields (key_name key) (JArr (kept ++ [point now v])))).
    repeat split; try assumption.
    + now apply filterM_is_filter.
    + unfold series_of. now rewrite get_set_same.
    + intros p t Hin Ht Hle. rewrite Forall_forall in Hall.
      pose proof (@newer_than_true_lt _ _ _ (Hall p Hin) Ht). lia.
Qed.

(** C3, as the code has it: after [addHistoryPoint(key, v)] completes at
    time [now] on a snapshot that is a mapping, every point of the series
    under [key] has a timestamp after [now - week]; every other series of
    the mapping is written back exactly as it was loaded, unpruned. *)
Theorem addHistoryPoint_prunes_own_series (key : series_key) (v : json)
    (now : Z) (d d' : disk) (fields : list (string * json)) :
  loadHistory d = JObj fields ->
  addHistoryPoint key v now d = Ok d' ->
  exists fields',
    d' = Some (JSON_stringify (JObj fields'))
    /\ (exists l, series_of (JObj fields') (key_name key) = Some l
                  /\ forall p t, In p l -> timestamp_of p = Some t ->
                                 now - week < t)
    /\ (forall name, name <> key_name key ->
                     get fields' name = get fields name).
Proof.
  intros Hload Hadd.
  destruct (addHistoryPoint_written key v now d Hload Hadd)
    as (old & kept & _ & _ & -> & Hall).
  exists (set fields (key_name key) (JArr (kept ++ [point now v]))).
  split; [reflexivity|]. split.
  - exists (kept ++ [point now v]). split.
    + unfold series_of. now rewrite get_set_same.
    + intros p t Hin Ht. rewrite Forall_forall in Hall.
      exact (@newer_than_true_lt _ _ _ (Hall p Hin) Ht).
  - intros name Hne. now apply get_set_other.
Qed.

(** On a well-formed series the throttle condition is the negation of
    [fresh]. *)
Lemma due_last (t : Z) (series : list json) :
  forallb is_point series = true ->
  due ToNumber_exotic (last (map Some series) undefined) (t - hour)
  = Ok (negb (fresh t series)).
Proof.
  unfold fresh. induction series as [|p l IH]; [reflexivity|].
  intro H. cbn [forallb] in H. apply andb_prop in H as [Hp Hl].
  destruct l as [|q l'].
  - clear IH Hl. unfold is_point in Hp. cbn [map last].
    destruct (timestamp_of p) as [t0|] eqn:Ht; [|discriminate].
    unfold timestamp_of in Ht. destruct p; try discriminate.
    cbn [due truthy field_of bind].
    destruct (get fields "timestamp") as [[]|]; try discriminate.
    injection Ht as ->. cbn [js_lt to_number]. f_equal.
    destruct (Z.ltb_spec t0 (t - hour)), (Z.leb_spec (t - hour) t0);
      try reflexivity; lia.
  - specialize (IH Hl). cbn [map last] in *. exact IH.
Qed.

Lemma last_snoc (A : Type) (l : list A) (x d0 : A) : last (l ++ [x]) d0 = x.
Proof.
  induction l as [|y l IH]; [reflexivity|].
  cbn [app last]. destruct (l ++ [x]) eqn:E; [|exact IH].
  now destruct l.
Qed.

Lemma fresh_after_append (t : Z) (l : list json) (v : json) :
  fresh t (l ++ [point t v]) = true.
Proof.
  unfold fresh. rewrite map_app. cbn [map]. rewrite last_snoc. cbn.
  apply Z.leb_le. pose proof hour_pos. lia.
Qed.

Lemma retained_points (w : Z) (l : list json) :
  forallb is_point (retained w l) = true.
Proof.
  unfold retained. apply forallb_forall. intros p Hin.
  apply filter_In in Hin as [_ Hp]. unfold is_point.
  now destruct (timestamp_of p).
Qed.

(** The sampling block on a mapping whose series is well formed. *)
Lemma track_object (key : series_key) (v : json) (t : Z) (d : disk)
    (fields : list (string * json)) (series : list json) :
  loadHistory d = JObj fields ->
  current_series (get fields (key_name key)) = Some series ->
  forallb is_point series = true ->
  track key v t t d
  = Ok (if fresh t series then d
        else Some (JSON_stringify
                     (JObj (set fields (key_name key)
                              (JArr (retained (t - week) series
                                     ++ [point t v])))))).
Proof.
  intros Hload Hcur Hwf. unfold track. rewrite Hload.
  assert (lastPoint ToNumber_exotic key (JObj fields)
          = Ok (last (map Some series) undefined)) as ->.
  { unfold lastPoint. cbn [field_of bind]. unfold current_series in Hcur.
    destruct (get fields (key_name key)) as [[| [] | n | s | l | f]|];
      cbn [truthy] in Hcur; try discriminate;
      try (injection Hcur as <-; reflexivity).
    - destruct (n =? 0); [|discriminate]. injection Hcur as <-. reflexivity.
    - destruct s as [|c s]; [|discriminate]. injection Hcur as <-. reflexivity. }
  cbn [bind]. rewrite (due_last t series Hwf). cbn [bind].
  destruct (fresh t series); cbn [negb]; [reflexivity|].
  rewrite (@addHistoryPoint_object key v t d fields Hload), Hcur.
  now rewrite (filterM_points (t - week) series Hwf).
Qed.

(** C4: on a mapping whose series for the key is well formed (missing
    and empty series included), sampling at time [t] does nothing when
    the last stored point is at most an hour older than [t]; when there is
    no last point or it is more than an hour older, exactly one point
    [{timestamp: t, value: v}] is appended (after the points the week's
    retention keeps).  Sampling a second time at the same [t] then does
    nothing: the two calls together store that one point. *)
Theorem track_throttle (key : series_key) (v : json) (t : Z) (d : disk)
    (fields : list (string * json)) (series : list json) :
  loadHistory d = JObj fields ->
  current_series (get fields (key_name key)) = Some series ->
  forallb is_point series = true ->
  let written :=
    JObj (set fields (key_name key)
            (JArr (retained (t - week) series ++ [point t v]))) in
  JSON_parse (JSON_stringify written) = Some written ->
  let d1 := if fresh t series then d else Some (JSON_stringify written) in
  track key v t t d = Ok d1
  /\ track key v t t d1 = Ok d1.
Proof.
  intros Hload Hcur Hwf written Hrt d1.
  pose proof (track_object key v t d Hload Hcur Hwf) as Hfirst.
  fold written in Hfirst. fold d1 in Hfirst.
  split; [exact Hfirst|].
  subst d1. destruct (fresh t series) eqn:Hfr.
  - rewrite Hfirst. reflexivity.
  - assert (loadHistory (Some (JSON_stringify written)) = written) as Hload1
      by (simpl; now rewrite Hrt).
    unfold written in Hload1 at 2.
    rewrite (@track_object key v t _ _
               (retained (t - week) series ++ [point t v]) Hload1).
    + now rewrite fresh_after_append.
    + now rewrite get_set_same.
    + rewrite forallb_app, retained_points. reflexivity.
Qed.

End StoreFacts.

(** *** The store on concrete snapshots *)

Lemma loadHistory_bad_snapshot_witness :
  (Some corrupt_text = None
   \/ exists text, Some corrupt_text = Some text /\ JsonText.parse text = None)
  /\ load (Some corrupt_text) = empty_history
  /\ add wallet (JNum 5) a_day (Some corrupt_text)
     = Ok (Some (JsonText.stringify
                   (JObj [("wallet", JArr [point a_day (JNum 5)]);
                          ("trust", JArr [])]))).
Proof.
  assert (Some corrupt_text = None
          \/ exists text, Some corrupt_text = Some text
                          /\ JsonText.parse text = None) as H
    by (right; exists corrupt_text; split; reflexivity).
  split; [exact H|].
  destruct (loadHistory_bad_snapshot JsonText.parse JsonText.stringify
              JsonText.to_number_nan H) as [Hl Ha].
  split; [exact Hl | exact (Ha wallet (JNum 5) a_day)].
Defined.

(** The file [[1]] is valid JSON and not a mapping; [loadHistory]
    returns the array, and [addHistoryPoint] on it does not throw. *)
Lemma array_snapshot_completes :
  JsonText.parse "[1]" = Some (JArr [JNum 1])
  /\ load (Some "[1]") = JArr [JNum 1]
  /\ load (Some "[1]") <> empty_history
  /\ add wallet (JNum 5) a_day (Some "[1]")
     = Ok (Some (JsonText.stringify (JArr [JNum 1])))
  /\ add wallet (JNum 5) a_day (Some "[1]") <> Throw TypeError.
Proof.
  repeat split; try (vm_compute; reflexivity); vm_compute; discriminate.
Qed.

Lemma loadHistory_non_mapping_witness :
  JsonText.parse "null" = Some JNull
  /\ (forall fields, JNull <> JObj fields)
  /\ load (Some "null") = JNull
  /\ add trust (JNum 1) a_day (Some "null") = Throw TypeError.
Proof.
  assert (JsonText.parse "null" = Some JNull) as Hp by reflexivity.
  assert (forall fields, JNull <> JObj fields) as Hv by discriminate.
  split; [exact Hp|]. split; [exact Hv|].
  destruct (@loadHistory_non_mapping JsonText.parse JsonText.stringify
              JsonText.to_number_nan "null" JNull Hp Hv)
    as (Hl & _ & Ha & _).
  split; [exact Hl | exact (Ha eq_refl trust (JNum 1) a_day)].
Defined.

(** A number in the file behaves like [null] does. *)
Example number_snapshot :
  load (Some "17") = JNum 17
  /\ add wallet (JNum 5) a_day (Some "17") = Throw TypeError
  /\ sample wallet (JNum 5) a_day a_day (Some "17") = Throw TypeError.
Proof. repeat split; vm_compute; reflexivity. Qed.

(** An array in the file is an object to the language: the sample is
    dropped without an exception and the array is written back. *)
Example array_snapshot :
  add wallet (JNum 5) a_day (Some "[1]")
  = Ok (Some (JsonText.stringify (JArr [JNum 1]))).
Proof. vm_compute; reflexivity. Qed.

(** The text on disk is another matter: with no snapshot file, or a
    corrupt one, [saveHistory(loadHistory())] leaves a file holding the
    empty mapping where no parsable file was. *)
Lemma save_load_creates_snapshot :
  content_of (saveHistory JsonText.stringify (load None) None) <> content_of None
  /\ content_of (saveHistory JsonText.stringify (load (Some corrupt_text))
                   (Some corrupt_text))
     <> content_of (Some corrupt_text).
Proof. split; vm_compute; discriminate. Qed.


Lemma addHistoryPoint_retention_witness :
  load (Some "{}") = JObj []
  /\ get [] "wallet" = None
  /\ add wallet (JNum 5) a_day (Some "{}")
     = Ok (Some (JsonText.stringify
                   (JObj [("wallet", JArr [point a_day (JNum 5)])])))
  /\ load (Some trust_at_0) = JObj trust_at_0_fields
  /\ current_series (get trust_at_0_fields "trust") = Some [point 0 (JNum 50)]
  /\ add trust (JNum 60) a_day (Some trust_at_0)
     = Ok (Some (JsonText.stringify after_trust_sample)).
Proof.
  assert (load (Some "{}") = JObj []) as Hl0 by (vm_compute; reflexivity).
  assert (load (Some trust_at_0) = JObj trust_at_0_fields) as Hl
    by (vm_compute; reflexivity).
  split; [exact Hl0|]. split; [reflexivity|].
  destruct (@addHistoryPoint_retention JsonText.parse JsonText.stringify
              JsonText.to_number_nan wallet (JNum 5) a_day (Some "{}") [] Hl0)
    as (_ & Hcreate & _).
  destruct (@addHistoryPoint_retention JsonText.parse JsonText.stringify
              JsonText.to_number_nan trust (JNum 60) a_day (Some trust_at_0)
              trust_at_0_fields Hl)
    as (Hprune & _ & _).
  split; [exact (Hcreate eq_refl)|]. split; [exact Hl|].
  split; [reflexivity|].
  exact (Hprune [point 0 (JNum 50)] eq_refl eq_refl).
Defined.

(** A wallet sample leaves the week-old trust point of time 0 in the
    snapshot. *)
Lemma stale_point_survives_in_other_series :
  exists d' h l p t,
    add wallet (JNum 5) a_day (Some trust_at_0) = Ok d'
    /\ content_of d' = Some h
    /\ series_of h "trust" = Some l
    /\ In p l
    /\ timestamp_of p = Some t
    /\ ~ t > a_day - week.
Proof.
  exists (Some (JsonText.stringify after_wallet_sample)), after_wallet_sample,
    [point 0 (JNum 50)], (point 0 (JNum 50)), 0.
  repeat split; try (vm_compute; reflexivity).
  - now left.
  - vm_compute. intro H; discriminate H.
Qed.

Lemma addHistoryPoint_prunes_own_series_witness :
  load (Some trust_at_0) = JObj trust_at_0_fields
  /\ add trust (JNum 60) a_day (Some trust_at_0)
     = Ok (Some (JsonText.stringify after_trust_sample))
  /\ exists fields',
       Some (JsonText.stringify after_trust_sample)
       = Some (JsonText.stringify (JObj fields'))
       /\ (exists l, series_of (JObj fields') "trust" = Some l
                     /\ forall p t, In p l -> timestamp_of p = Some t ->
                                    a_day - week < t)
       /\ (forall name, name <> "trust" ->
                        get fields' name = get trust_at_0_fields name).
Proof.
  assert (load (Some trust_at_0) = JObj trust_at_0_fields) as Hl
    by (vm_compute; reflexivity).
  assert (add trust (JNum 60) a_day (Some trust_at_0)
          = Ok (Some (JsonText.stringify after_trust_sample))) as Ha
    by (vm_compute; reflexivity).
  split; [exact Hl|]. split; [exact Ha|].
  exact (@addHistoryPoint_prunes_own_series JsonText.parse JsonText.stringify
           JsonText.to_number_nan trust (JNum 60) a_day (Some trust_at_0)
           _ _ Hl Ha).
Defined.

Lemma track_throttle_witness :
  load (Some trust_at_0) = JObj trust_at_0_fields
  /\ current_series (get trust_at_0_fields "trust") = Some [point 0 (JNum 50)]
  /\ forallb is_point [point 0 (JNum 50)] = true
  /\ JsonText.parse (JsonText.stringify after_early_trust_sample)
     = Some after_early_trust_sample
  /\ sample trust (JNum 60) 3700000 3700000 (Some trust_at_0)
     = Ok (Some (JsonText.stringify after_early_trust_sample))
  /\ sample trust (JNum 60) 3700000 3700000
       (Some (JsonText.stringify after_early_trust_sample))
     = Ok (Some (JsonText.stringify after_early_trust_sample)).
Proof.
  assert (load (Some trust_at_0) = JObj trust_at_0_fields) as Hl
    by (vm_compute; reflexivity).
  assert (current_series (get trust_at_0_fields "trust")
          = Some [point 0 (JNum 50)]) as Hc by reflexivity.
  assert (forallb is_point [point 0 (JNum 50)] = true) as Hw by reflexivity.
  assert (JsonText.parse (JsonText.stringify after_early_trust_sample)
          = Some after_early_trust_sample) as Hrt by (vm_compute; reflexivity).
  split; [exact Hl|]. split; [exact Hc|]. split; [exact Hw|]. split; [exact Hrt|].
  exact (@track_throttle JsonText.parse JsonText.stringify
           JsonText.to_number_nan trust (JNum 60) 3700000
           (Some trust_at_0) _ _ Hl Hc Hw Hrt).
Defined.

(** The scenario of the specification: a trust point at time 0; a sample
    at 1000 ms stores nothing, a sample at 3700000 ms stores a second
    point. *)
Example trust_scenario :
  sample trust (JNum 60) 1000 1000 (Some trust_at_0) = Ok (Some trust_at_0)
  /\ sample trust (JNum 60) 3700000 3700000 (Some trust_at_0)
     = Ok (Some (JsonText.stringify after_early_trust_sample)).
Proof. split; vm_compute; reflexivity. Qed.

End HistorySpec.

(** ** Event collector *)

Module CollectorSpec.
Import Classifier Collector Samples.

Lemma run_app (a b : list callback) (s : state) :
  run (a ++ b) s
  = match run a s with
    | Some s' => run b s'
    | None => None
    end.
Proof.
  revert s. induction a as [|c a IH]; intro s; simpl; [reflexivity|].
  destruct (fire c s); [apply IH | reflexivity].
Qed.

(** [sub.close()] runs once in every end-of-stream and every timeout
    callback. *)
Lemma run_closes (cs : list callback) (s s' : state) :
  run cs s = Some s' ->
  closes s' = (closes s + count is_eose cs + count is_timeout cs)%nat.
Proof.
  unfold count. revert s. induction cs as [|c cs IH]; intros s H; simpl in H.
  - injection H as <-. simpl. lia.
  - destruct (fire c s) as [s1|] eqn:Hf; [|discriminate].
    rewrite (@IH s1 H). destruct c; simpl in Hf |- *.
    + injection Hf as <-. simpl. lia.
    + injection Hf as <-. simpl. lia.
    + destruct (timer_armed s); [|discriminate].
      injection Hf as <-. simpl. lia.
Qed.

(** Once the timer is cleared or has fired, its callback never runs. *)
Lemma run_disarmed (cs : list callback) (s s' : state) :
  timer_armed s = false -> run cs s = Some s' -> count is_timeout cs = 0%nat.
Proof.
  unfold count. revert s. induction cs as [|c cs IH]; intros s Hoff H;
    simpl in H; [reflexivity|].
  destruct (fire c s) as [s1|] eqn:Hf; [|discriminate].
  destruct c; simpl in Hf |- *.
  - injection Hf as <-. eapply IH; [|exact H]. exact Hoff.
  - injection Hf as <-. eapply IH; [|exact H]. reflexivity.
  - rewrite Hoff in Hf. discriminate.
Qed.

Lemma run_timeout_once (cs : list callback) (s s' : state) :
  run cs s = Some s' -> (count is_timeout cs <= 1)%nat.
Proof.
  revert s. induction cs as [|c cs IH]; intros s H; simpl in H;
    [unfold count; simpl; lia|].
  destruct (fire c s) as [s1|] eqn:Hf; [|discriminate].
  destruct c; simpl in Hf.
  - exact (@IH s1 H).
  - exact (@IH s1 H).
  - destruct (timer_armed s); [|discriminate]. injection Hf as <-.
    assert (count is_timeout cs = 0%nat) as H0
      by (eapply run_disarmed; [|exact H]; reflexivity).
    unfold count in *. simpl. lia.
Qed.

(** A settled Promise keeps its value. *)
Lemma run_resolved_stable (cs : list callback) (s s' : state)
    (l : list RawEvent) :
  resolved s = Some l -> run cs s = Some s' -> resolved s' = Some l.
Proof.
  revert s. induction cs as [|c cs IH]; intros s Hr H; simpl in H.
  - now injection H as <-.
  - destruct (fire c s) as [s1|] eqn:Hf; [|discriminate].
    apply (IH s1); [|exact H].
    destruct c; simpl in Hf.
    + now injection Hf as <-.
    + injection Hf as <-. unfold resolve. simpl. now rewrite Hr.
    + destruct (timer_armed s); [|discriminate].
      injection Hf as <-. unfold resolve. simpl. now rewrite Hr.
Qed.

(** The first end-of-stream or timeout settles the Promise with the
    events delivered until then. *)
Lemma run_resolved (cs : list callback) (s s' : state) :
  resolved s = None -> run cs s = Some s' ->
  resolved s'
  = if existsb is_end cs then Some (collected s ++ events_before_end cs)
    else None.
Proof.
  revert s. induction cs as [|c cs IH]; intros s Hr H; simpl in H.
  - now injection H as <-.
  - destruct (fire c s) as [s1|] eqn:Hf; [|discriminate].
    destruct c; simpl in Hf.
    + injection Hf as <-. eapply IH in H; [|exact Hr]. rewrite H. simpl.
      now rewrite <- app_assoc.
    + injection Hf as <-. simpl.
      rewrite app_nil_r. eapply run_resolved_stable; [|exact H].
      unfold resolve. simpl. now rewrite Hr.
    + destruct (timer_armed s); [|discriminate]. injection Hf as <-. simpl.
      rewrite app_nil_r. eapply run_resolved_stable; [|exact H].
      unfold resolve. simpl. now rewrite Hr.
Qed.

Lemma count_app (f : callback -> bool) (a b : list callback) :
  count f (a ++ b) = (count f a + count f b)%nat.
Proof. unfold count. now rewrite filter_app, length_app. Qed.

(** After [oneose] the timer is cleared: no timeout callback follows. *)
Lemma no_timeout_after_eose (pre post : list callback) (s s' : state) :
  run (pre ++ OnEose :: post) s = Some s' -> count is_timeout post = 0%nat.
Proof.
  rewrite run_app. destruct (run pre s) as [s1|]; [|discriminate].
  simpl. intro H. eapply run_disarmed; [|exact H]. reflexivity.
Qed.

(** The timeout fires, then the library calls [oneose]: [sub.close()]
    runs a second time. *)
Lemma timeout_then_eose_closes_twice :
  exists s, run [Timeout; OnEose] init = Some s
            /\ closes s = 2%nat
            /\ ~ (closes s <= 1)%nat.
Proof.
  eexists. split; [reflexivity|]. split; [reflexivity|]. simpl. lia.
Qed.

(** C5, as the code has it: in every order of callbacks, the first
    end-of-stream or timeout settles the Promise with the events delivered
    until then and nothing later changes that value; [oneose] clears the
    timer, so no timeout callback runs after it and the timeout callback
    runs at most once; [sub.close()] runs once per end-of-stream or
    timeout callback, hence at most once when the library calls [oneose]
    at most once and not after the timeout. *)
Theorem collector_race (cs : list callback) (s : state) :
  run cs init = Some s ->
  resolved s
  = (if existsb is_end cs then Some (events_before_end cs) else None)
  /\ closes s = (count is_eose cs + count is_timeout cs)%nat
  /\ (count is_timeout cs <= 1)%nat
  /\ (forall pre post, cs = pre ++ OnEose :: post ->
                       count is_timeout post = 0%nat)
  /\ ((count is_eose cs <= 1)%nat ->
      (forall pre post, cs = pre ++ Timeout :: post ->
                        count is_eose post = 0%nat) ->
      (closes s <= 1)%nat).
Proof.
  intro H.
  pose proof (@run_closes cs init s H) as Hc. simpl in Hc.
  pose proof (@run_timeout_once cs init s H) as Ht.
  assert (forall pre post, cs = pre ++ OnEose :: post ->
                           count is_timeout post = 0%nat) as Hafter.
  { intros pre post ->. exact (@no_timeout_after_eose pre post init s H). }
  split; [exact (@run_resolved cs init s eq_refl H)|].
  split; [exact Hc|]. split; [exact Ht|]. split; [exact Hafter|].
  intros He Hgate. rewrite Hc.
  destruct (count is_timeout cs) as [|n] eqn:Hn; [lia|].
  assert (exists pre post, cs = pre ++ Timeout :: post) as (pre & post & ->).
  { unfold count in Hn. destruct (filter is_timeout cs) as [|c l] eqn:Hfl;
      [discriminate|].
    assert (In c (filter is_timeout cs)) as Hin by (rewrite Hfl; now left).
    apply filter_In in Hin as [Hin Hc'].
    destruct c; try discriminate. now apply in_split. }
  specialize (Hgate pre post eq_refl).
  assert (count is_eose pre = 0%nat) as Hpre.
  { destruct (count is_eose pre) as [|m] eqn:Hm; [reflexivity|].
    exfalso. unfold count in Hm.
    destruct (filter is_eose pre) as [|c l] eqn:Hfl; [discriminate|].
    assert (In c (filter is_eose pre)) as Hin by (rewrite Hfl; now left).
    apply filter_In in Hin as [Hin Hc'].
    destruct c; try discriminate.
    apply in_split in Hin as (p1 & p2 & ->).
    specialize (Hafter p1 (p2 ++ Timeout :: post)).
    rewrite <- app_assoc in Hafter. specialize (Hafter eq_refl).
    rewrite count_app in Hafter. unfold count in Hafter. simpl in Hafter. lia. }
  rewrite count_app in He |- *. change (OnEose :: post) with ([OnEose] ++ post).
  change (Timeout :: post) with ([Timeout] ++ post) in *.
  rewrite count_app in *. unfold count in *. simpl in *. lia.
Qed.

(** The scenario of the specification: three events, then end of stream;
    the Promise settles with those three, [sub.close()] has run once, and
    the cleared timer cannot fire. *)
Lemma collector_race_witness :
  let cs := map OnEvent three_events ++ [OnEose] in
  exists s,
    run cs init = Some s
    /\ resolved s = Some three_events
    /\ closes s = 1%nat
    /\ (closes s <= 1)%nat
    /\ run (cs ++ [Timeout]) init = None.
Proof.
  intro cs.
  assert (run cs init
          = Some {| collected := three_events; timer_armed := false;
                    closes := 1; resolved := Some three_events |}) as Hrun
    by reflexivity.
  assert (count is_eose cs <= 1)%nat as Hone by (unfold count; simpl; lia).
  assert (forall pre post, cs = pre ++ Timeout :: post ->
                           count is_eose post = 0%nat) as Hgate.
  { intros pre post Hcs.
    assert (In Timeout cs) as Hin by (rewrite Hcs; apply in_elt).
    simpl in Hin. repeat (destruct Hin as [Hin|Hin]; [discriminate Hin|]).
    destruct Hin. }
  eexists. split; [exact Hrun|].
  destruct (@collector_race cs _ Hrun) as (Hres & Hcl & _ & _ & Hle).
  split; [exact Hres|]. split; [exact Hcl|].
  split; [exact (Hle Hone Hgate) | reflexivity].
Defined.

End CollectorSpec.

(* ================================================================== *)
(** * Further properties                                               *)
(* ================================================================== *)

(** ** Tag extraction and partition *)

Module ClassifierMore.
Import Classifier ListFacts MoreSamples.

Lemma find_slot1_first (pred : list string -> bool)
    (pre post : list (list string)) (t : list string) :
  Forall (fun u => pred u = false) pre -> pred t = true ->
  find_slot1 pred (pre ++ t :: post) = nth_error t 1.
Proof.
  intros Hpre Ht. unfold find_slot1.
  induction Hpre as [|u pre Hu _ IH]; simpl.
  - now rewrite Ht.
  - now rewrite Hu.
Qed.

Lemma find_slot1_none (pred : list string -> bool) (ts : list (list string)) :
  Forall (fun u => pred u = false) ts -> find_slot1 pred ts = None.
Proof.
  intro H. unfold find_slot1.
  induction H as [|u ts Hu _ IH]; simpl; [reflexivity|]. now rewrite Hu.
Qed.

Lemma slot_is_spec (t : list string) (i : nat) (s : string) :
  slot_is t i s = true <-> nth_error t i = Some s.
Proof.
  unfold slot_is. destruct (nth_error t i) as [x|]; [|split; discriminate].
  destruct (String.eqb_spec x s) as [->|Hne]; split; try reflexivity;
    try discriminate. intros [= H]. contradiction.
Qed.

Lemma slot_is_false (t : list string) (i : nat) (s : string) :
  nth_error t i <> Some s -> slot_is t i s = false.
Proof.
  intro H. destruct (slot_is t i s) eqn:E; [|reflexivity].
  apply slot_is_spec in E. contradiction.
Qed.

(** X1: the target is read from the first tag headed ["p"]: later ["p"]
    tags are ignored, and a first tag that has no second element gives
    [undefined]. *)
Theorem to_is_first_p_tag (me : string) (e : RawEvent)
    (pre post : list (list string)) (t : list string) :
  tags e = pre ++ t :: post ->
  Forall (fun u => nth_error u 0 <> Some "p") pre ->
  nth_error t 0 = Some "p" ->
  to (toAttestation me e) = nth_error t 1.
Proof.
  intros Htags Hpre Ht. unfold toAttestation; cbn [to]. rewrite Htags.
  apply find_slot1_first.
  - eapply Forall_impl; [|exact Hpre]. intros u Hu. now apply slot_is_false.
  - now apply slot_is_spec.
Qed.

Lemma to_is_first_p_tag_witness :
  tags tagged_event
  = [["e"; "x"]; ["l"; "other"; "elsewhere"]] ++ ["p"; "bob"]
    :: [["l"; "work-completed"; "ai.wot"]; ["p"; "carol"]]
  /\ Forall (fun u => nth_error u 0 <> Some "p")
       [["e"; "x"]; ["l"; "other"; "elsewhere"]]
  /\ nth_error ["p"; "bob"] 0 = Some "p"
  /\ to (toAttestation "me" tagged_event) = Some "bob".
Proof.
  assert (Forall (fun u : list string => nth_error u 0 <> Some "p")
            [["e"; "x"]; ["l"; "other"; "elsewhere"]]) as Hpre
    by (repeat constructor; discriminate).
  split; [reflexivity|]. split; [exact Hpre|]. split; [reflexivity|].
  exact (@to_is_first_p_tag "me" tagged_event
           [["e"; "x"]; ["l"; "other"; "elsewhere"]]
           [["l"; "work-completed"; "ai.wot"]; ["p"; "carol"]]
           ["p"; "bob"] eq_refl Hpre eq_refl).
Defined.

(** X2: the type is read from the first tag that is headed ["l"] and has
    ["ai.wot"] as its third element; an ["l"] tag of another namespace,
    or with no third element, is passed over. *)
Theorem type_is_first_label_in_namespace (me : string) (e : RawEvent)
    (pre post : list (list string)) (t : list string) :
  tags e = pre ++ t :: post ->
  Forall (fun u => ~ (nth_error u 0 = Some "l"
                      /\ nth_error u 2 = Some "ai.wot")) pre ->
  nth_error t 0 = Some "l" ->
  nth_error t 2 = Some "ai.wot" ->
  type (toAttestation me e) = nth_error t 1.
Proof.
  intros Htags Hpre Ht0 Ht2. unfold toAttestation; cbn [type]. rewrite Htags.
  apply find_slot1_first.
  - eapply Forall_impl; [|exact Hpre]. intros u Hu. cbv beta.
    destruct (slot_is u 0 "l") eqn:E0; [|reflexivity].
    destruct (slot_is u 2 "ai.wot") eqn:E2; [|reflexivity].
    apply slot_is_spec in E0, E2. exfalso. apply Hu. now split.
  - apply andb_true_intro. split; now apply slot_is_spec.
Qed.

Lemma type_is_first_label_in_namespace_witness :
  tags tagged_event
  = [["e"; "x"]; ["l"; "other"; "elsewhere"]; ["p"; "bob"]]
    ++ ["l"; "work-completed"; "ai.wot"] :: [["p"; "carol"]]
  /\ Forall (fun u => ~ (nth_error u 0 = Some "l"
                         /\ nth_error u 2 = Some "ai.wot"))
       [["e"; "x"]; ["l"; "other"; "elsewhere"]; ["p"; "bob"]]
  /\ type (toAttestation "me" tagged_event) = Some "work-completed".
Proof.
  assert (Forall (fun u : list string =>
                    ~ (nth_error u 0 = Some "l"
                       /\ nth_error u 2 = Some "ai.wot"))
            [["e"; "x"]; ["l"; "other"; "elsewhere"]; ["p"; "bob"]]) as Hpre
    by (repeat constructor; intros [H0 H2]; discriminate).
  split; [reflexivity|]. split; [exact Hpre|].
  exact (@type_is_first_label_in_namespace "me" tagged_event
           [["e"; "x"]; ["l"; "other"; "elsewhere"]; ["p"; "bob"]]
           [["p"; "carol"]] ["l"; "work-completed"; "ai.wot"]
           eq_refl Hpre eq_refl eq_refl).
Defined.

(** X3: an event without a ["p"] tag has an undefined target, one
    without a label of the namespace an undefined type, and one without a
    ["comment"] tag the empty comment; none of these is an error. *)
Theorem absent_tags_give_defaults (me : string) (e : RawEvent) :
  (Forall (fun u => nth_error u 0 <> Some "p") (tags e) ->
   to (toAttestation me e) = None)
  /\ (Forall (fun u => ~ (nth_error u 0 = Some "l"
                          /\ nth_error u 2 = Some "ai.wot")) (tags e) ->
      type (toAttestation me e) = None)
  /\ (Forall (fun u => nth_error u 0 <> Some "comment") (tags e) ->
      comment (toAttestation me e) = EmptyString).
Proof.
  unfold toAttestation; cbn [to type comment]. repeat split; intro H.
  - apply find_slot1_none. eapply Forall_impl; [|exact H].
    intros u Hu. now apply slot_is_false.
  - apply find_slot1_none. eapply Forall_impl; [|exact H].
    intros u Hu. cbv beta.
    destruct (slot_is u 0 "l") eqn:E0; [|reflexivity].
    destruct (slot_is u 2 "ai.wot") eqn:E2; [|reflexivity].
    apply slot_is_spec in E0, E2. exfalso. apply Hu. now split.
  - rewrite find_slot1_none; [reflexivity|].
    eapply Forall_impl; [|exact H]. intros u Hu. now apply slot_is_false.
Qed.

Lemma absent_tags_give_defaults_witness :
  to (toAttestation "me" bare_event) = None
  /\ type (toAttestation "me" bare_event) = None
  /\ comment (toAttestation "me" bare_event) = EmptyString
  /\ comment (toAttestation "me" tagged_event) = EmptyString.
Proof.
  destruct (absent_tags_give_defaults "me" bare_event) as (Hto & Hty & Hc).
  destruct (absent_tags_give_defaults "me" tagged_event) as (_ & _ & Hc').
  split; [apply Hto; constructor|]. split; [apply Hty; constructor|].
  split; [apply Hc; constructor|].
  apply Hc'. repeat constructor; discriminate.
Defined.

Lemma in_classified (E : list RawEvent) (R : string) (a : Attestation) :
  In a (sort by_timestamp_desc (map (toAttestation R) E)) ->
  exists e, In e E /\ a = toAttestation R e.
Proof.
  intro H.
  assert (forall (l : list Attestation) x, In x (sort by_timestamp_desc l) ->
                                           In x l) as Hsub.
  { induction l as [|y l IH]; simpl; [tauto|]. intros x Hx.
    assert (forall z k, In x (insert by_timestamp_desc z k) -> x = z \/ In x k)
      as Hins.
    { intros z k. induction k as [|w k IHk]; simpl.
      - intros [->|[]]; now left.
      - destruct (by_timestamp_desc z w <=? 0); simpl.
        + intros [->|[->|Hk]]; auto.
        + intros [->|Hk]; [auto|]. destruct (IHk Hk); auto. }
    destruct (Hins _ _ Hx) as [->|Hin]; [now left | right; now apply IH]. }
  apply Hsub, in_map_iff in H as (e & <- & He). now exists e.
Qed.

(** X4: every attestation listed under [given] was issued by the
    reference identity, and none listed under [received] was. *)
Theorem classify_directions (E : list RawEvent) (R : string) :
  Forall (fun a => direction a = given /\ from a = R)
    (batch_given (classify E R))
  /\ Forall (fun a => direction a = received /\ from a <> R)
       (batch_received (classify E R)).
Proof.
  unfold classify; cbn [batch_given batch_received].
  split; apply Forall_forall; intros a Ha; apply filter_In in Ha as [Hin Hd];
    destruct (in_classified E R a Hin) as (e & _ & ->);
    unfold toAttestation in *; cbn [direction from] in *;
    destruct (String.eqb_spec (pubkey e) R); try discriminate; now split.
Qed.

Lemma insert_front (x : Attestation) (l : list Attestation) :
  Forall (fun y => timestamp y <= timestamp x) l ->
  insert by_timestamp_desc x l = x :: l.
Proof.
  intros H. destruct l as [|y l]; [reflexivity|]. simpl.
  inversion H as [|? ? Hy _]; subst. unfold by_timestamp_desc.
  destruct (Z.leb_spec (timestamp y - timestamp x) 0); [reflexivity | lia].
Qed.

Lemma sort_sorted_id (l : list Attestation) :
  StronglySorted (fun a b => timestamp b <= timestamp a) l ->
  sort by_timestamp_desc l = l.
Proof.
  induction 1 as [|x l Hl IH Hx]; simpl; [reflexivity|].
  rewrite IH. now apply insert_front.
Qed.

(** X5: when the relay delivers the events newest first, the sort moves
    nothing: each output sequence lists its attestations in delivery
    order. *)
Theorem classify_keeps_newest_first_batch (E : list RawEvent) (R : string) :
  StronglySorted (fun e1 e2 => created_at e2 <= created_at e1) E ->
  batch_received (classify E R)
  = map (toAttestation R) (filter (fun e => negb (String.eqb (pubkey e) R)) E)
  /\ batch_given (classify E R)
     = map (toAttestation R) (filter (fun e => String.eqb (pubkey e) R) E).
Proof.
  intro Hs. unfold classify; cbn [batch_given batch_received].
  rewrite sort_sorted_id.
  - rewrite !filter_map_comm. split; f_equal; apply filter_ext; intro e;
      unfold toAttestation; cbn [direction];
      now destruct (String.eqb (pubkey e) R).
  - induction Hs as [|e E HE IH He]; simpl; constructor; [exact IH|].
    apply Forall_map. exact He.
Qed.

Lemma classify_keeps_newest_first_batch_witness :
  let E := [Samples.ev "b" "me" 30; Samples.ev "a" "alice" 10;
            Samples.ev "c" "bob" 10] in
  StronglySorted (fun e1 e2 => created_at e2 <= created_at e1) E
  /\ map att_id (batch_received (classify E "me")) = ["a"; "c"]
  /\ map att_id (batch_given (classify E "me")) = ["b"].
Proof.
  intro E.
  assert (StronglySorted (fun e1 e2 => created_at e2 <= created_at e1) E)
    as Hs by (repeat constructor; simpl; lia).
  split; [exact Hs|].
  destruct (@classify_keeps_newest_first_batch E "me" Hs) as [Hr Hg].
  split; [rewrite Hr | rewrite Hg]; reflexivity.
Defined.

End ClassifierMore.

(** ** DVM previews *)

Module DvmMore.
Import Classifier Dvm.

Lemma length_app_string (a b : string) :
  String.length (a ++ b) = (String.length a + String.length b)%nat.
Proof. induction a as [|c a IH]; simpl; [reflexivity | now rewrite IH]. Qed.

Lemma length_slice0 (n : nat) (s : string) :
  String.length (slice0 n s) = Nat.min n (String.length s).
Proof.
  unfold slice0. revert n. induction s as [|c s IH]; intros [|n]; simpl;
    try reflexivity. now rewrite IH.
Qed.

Lemma slice0_app (a b : string) : slice0 (String.length a) (a ++ b) = a.
Proof.
  unfold slice0. induction a as [|c a IH]; simpl.
  - now destruct b.
  - now rewrite IH.
Qed.

Lemma slice0_slice0 (n : nat) (s : string) : slice0 n (slice0 n s) = slice0 n s.
Proof.
  unfold slice0. revert n. induction s as [|c s IH]; intros [|n]; simpl;
    try reflexivity. now rewrite IH.
Qed.

Lemma preview_length (c : string) :
  String.length (preview c)
  = if (String.length c <=? 100)%nat then String.length c else 103%nat.
Proof.
  unfold preview. rewrite length_app_string, length_slice0.
  destruct (Nat.leb_spec (String.length c) 100),
           (Nat.ltb_spec 100 (String.length c)); cbn [String.length]; lia.
Qed.

Lemma preview_prefix (c : string) : slice0 100 (preview c) = slice0 100 c.
Proof.
  unfold preview. destruct (Nat.ltb_spec 100 (String.length c)) as [Hlt|Hle].
  - assert (String.length (slice0 100 c) = 100%nat) as Hlen
      by (rewrite length_slice0; lia).
    rewrite <- Hlen at 1. apply slice0_app.
  - rewrite DvmSpec.append_empty_r. apply slice0_slice0.
Qed.

(** X6: every preview of the response has at most 103 characters (the
    content's length when that is at most 100, else exactly 103) and
    agrees with the content on the first 100 characters; identifiers and
    timestamps are passed through in delivery order. *)
Theorem dvm_previews_bounded (events : list RawEvent) :
  Forall2 (fun e r =>
             res_id r = id e
             /\ res_timestamp r = created_at e
             /\ (String.length (contentPreview r) <= 103)%nat
             /\ String.length (contentPreview r)
                = (if (String.length (content e) <=? 100)%nat
                   then String.length (content e) else 103%nat)
             /\ slice0 100 (contentPreview r) = slice0 100 (content e))
    events (recentResults (dvm_response events)).
Proof.
  unfold dvm_response; cbn [recentResults].
  induction events as [|e events IH]; simpl; constructor; [|exact IH].
  unfold toResult; cbn [res_id res_timestamp contentPreview].
  repeat split.
  - rewrite preview_length.
    destruct (Nat.leb_spec (String.length (content e)) 100); lia.
  - apply preview_length.
  - apply preview_prefix.
Qed.

End DvmMore.

(** ** Service health *)

Module ServicesMore.
Import Services.

Lemma service_status_consistent (probe : string -> option string)
    (service : string) :
  name (service_status probe service) = service
  /\ healthy (service_status probe service)
     = String.eqb (status (service_status probe service)) "active".
Proof.
  unfold service_status. destruct (probe service); simpl; split; reflexivity.
Qed.

(** X7: whatever the probes return, the response lists the six services
    in the order of the handler's table, an entry is [healthy] exactly
    when its [status] is ["active"], and a service whose probe fails is
    reported ["inactive"] and not healthy. *)
Theorem services_health (probe : string -> option string) :
  map name (services_response probe) = services
  /\ Forall (fun s => healthy s = true <-> status s = "active")
       (services_response probe)
  /\ Forall (fun s => probe (name s) = None ->
                      status s = "inactive" /\ healthy s = false)
       (services_response probe).
Proof.
  unfold services_response. split; [|split].
  - rewrite map_map. erewrite map_ext; [apply map_id|].
    intro s. apply service_status_consistent.
  - apply Forall_map, Forall_forall. intros s _.
    destruct (service_status_consistent probe s) as [_ ->].
    split; [apply String.eqb_eq | intros ->; reflexivity].
  - apply Forall_map, Forall_forall. intros s _.
    unfold service_status. destruct (probe s) eqn:E; simpl.
    + rewrite E. discriminate.
    + now split.
Qed.

(** [systemctl] ends its answer with a line feed, which [trim] removes. *)
Example active_with_newline :
  service_status (fun _ => Some ("active" ++ String "010"%char EmptyString)%string)
    "jeletor-dvm"
  = {| name := "jeletor-dvm"; status := "active"; healthy := true |}.
Proof. reflexivity. Qed.

End ServicesMore.

(** ** Event collector *)

Module CollectorMore.
Import Classifier Collector Invariants CollectorSpec.

Lemma run_collected (cs : list callback) (s s' : state) :
  run cs s = Some s' -> collected s' = collected s ++ delivered cs.
Proof.
  revert s. induction cs as [|c cs IH]; intros s H; simpl in H.
  - injection H as <-. simpl. now rewrite app_nil_r.
  - destruct (fire c s) as [s1|] eqn:Hf; [|discriminate].
    rewrite (IH s1 H). destruct c; simpl in Hf |- *.
    + injection Hf as <-. simpl. now rewrite <- app_assoc.
    + now injection Hf as <-.
    + destruct (timer_armed s); [|discriminate]. now injection Hf as <-.
Qed.

Lemma events_before_end_prefix (cs : list callback) :
  exists rest, delivered cs = events_before_end cs ++ rest.
Proof.
  induction cs as [|c cs [rest IH]]; [now exists []|].
  destruct c; simpl.
  - exists rest. now rewrite IH.
  - now exists (delivered cs).
  - now exists (delivered cs).
Qed.



Lemma count_zero_existsb (f : callback -> bool) (cs : list callback) :
  count f cs = 0%nat <-> existsb f cs = false.
Proof.
  unfold count. induction cs as [|c cs IH]; simpl; [tauto|].
  destruct (f c); simpl; [split; discriminate | exact IH].
Qed.

Lemma existsb_is_end (cs : list callback) :
  existsb is_end cs = existsb is_eose cs || existsb is_timeout cs.
Proof.
  induction cs as [|c cs IH]; [reflexivity|]. simpl. rewrite IH.
  unfold is_end. destruct (is_eose c), (is_timeout c); simpl;
    try reflexivity; now rewrite ?orb_true_r.
Qed.

(** X9: the Promise is settled exactly when [sub.close()] has run: the
    handler never gets the events without the subscription having been
    closed, and the subscription is never closed without the events being
    handed over. *)
Theorem settled_iff_closed (cs : list callback) (s : state) :
  run cs init = Some s ->
  (resolved s = None <-> closes s = 0%nat).
Proof.
  intro H. rewrite (@run_resolved cs init s eq_refl H).
  rewrite (@run_closes cs init s H). simpl.
  rewrite existsb_is_end.
  destruct (existsb is_eose cs) eqn:Ee, (existsb is_timeout cs) eqn:Et;
    simpl; split; try discriminate; try reflexivity; intro Hz.
  - assert (count is_eose cs = 0%nat) as H0 by lia.
    apply count_zero_existsb in H0. congruence.
  - assert (count is_eose cs = 0%nat) as H0 by lia.
    apply count_zero_existsb in H0. congruence.
  - assert (count is_timeout cs = 0%nat) as H0 by lia.
    apply count_zero_existsb in H0. congruence.
  - apply count_zero_existsb in Ee, Et. lia.
Qed.

Lemma settled_iff_closed_witness :
  let cs := map OnEvent Samples.three_events in
  exists s, run cs init = Some s /\ resolved s = None /\ closes s = 0%nat.
Proof.
  intro cs.
  assert (run cs init
          = Some {| collected := Samples.three_events; timer_armed := true;
                    closes := 0; resolved := None |}) as Hrun by reflexivity.
  eexists. split; [exact Hrun|]. split; [reflexivity|].
  exact (proj1 (@settled_iff_closed cs _ Hrun) eq_refl).
Defined.

End CollectorMore.

(** ** History store: sampling over time and malformed snapshots *)

Unset Implicit Arguments.

Module HistoryMore.
Import Js History Invariants Samples MoreSamples ListFacts HistorySpec.

(** *** Lists of timestamps more than an hour apart *)

Lemma sorted_snoc (R : Z -> Z -> Prop) (l : list Z) (x : Z) :
  StronglySorted R l -> Forall (fun a => R a x) l ->
  StronglySorted R (l ++ [x]).
Proof.
  induction 1 as [|a l Hl IH Ha]; intro Hx; simpl.
  - repeat constructor.
  - inversion Hx as [|? ? Hax Hlx]; subst. constructor; [now apply IH|].
    apply Forall_app. split; [exact Ha | now constructor].
Qed.

Lemma gap_length (x hi : Z) (l : list Z) :
  StronglySorted (fun a b => a + hour < b) (x :: l) ->
  Forall (fun y => y <= hi) (x :: l) ->
  x + Z.of_nat (List.length l) * hour <= hi.
Proof.
  revert x. induction l as [|y l IH]; intros x Hs Hhi.
  - inversion Hhi; subst. simpl. lia.
  - inversion Hs as [|? ? Hs' Hx]; subst.
    inversion Hx as [|? ? Hxy _]; subst.
    inversion Hhi as [|? ? _ Hhi']; subst.
    specialize (IH y Hs' Hhi'). cbn [List.length]. lia.
Qed.

(** At most 168 timestamps fit in a week when they are more than an hour
    apart. *)
Lemma gap_count (lo hi : Z) (l : list Z) :
  StronglySorted (fun a b => a + hour < b) l ->
  Forall (fun y => lo < y <= hi) l ->
  hi - lo <= week ->
  (List.length l <= 168)%nat.
Proof.
  intros Hs Hin Hw. destruct l as [|x l]; [simpl; lia|].
  assert (x + Z.of_nat (List.length l) * hour <= hi) as Hb.
  { apply gap_length; [exact Hs|]. eapply Forall_impl; [|exact Hin].
    simpl. intros; lia. }
  inversion Hin as [|? ? Hx _]; subst.
  change week with (168 * hour) in Hw. pose proof hour_pos.
  cbn [List.length]. nia.
Qed.

Lemma stamps_app (l1 l2 : list json) : stamps (l1 ++ l2) = stamps l1 ++ stamps l2.
Proof. unfold stamps. apply map_app. Qed.

Lemma stamps_retained (w : Z) (l : list json) :
  forallb is_point l = true ->
  stamps (retained w l) = filter (fun t => w <? t) (stamps l).
Proof.
  unfold stamps, retained. induction l as [|p l IH]; [reflexivity|].
  intro H. cbn [forallb] in H. apply andb_prop in H as [Hp Hl].
  unfold is_point in Hp. cbn [filter map].
  destruct (timestamp_of p) as [t|] eqn:Ht; [|discriminate].
  destruct (w <? t); cbn [map]; rewrite ?Ht, (IH Hl); reflexivity.
Qed.

Lemma spaced_retained (w : Z) (l : list json) :
  forallb is_point l = true -> spaced l -> spaced (retained w l).
Proof.
  intros Hwf Hs. unfold spaced. rewrite stamps_retained by exact Hwf.
  now apply StronglySorted_filter.
Qed.

(** When the throttle lets a sample through, every stored point is more
    than an hour older than the time of the check. *)
Lemma stale_series_bound (now : Z) (l : list json) :
  forallb is_point l = true -> spaced l -> fresh now l = false ->
  Forall (fun a => a + hour < now) (stamps l).
Proof.
  unfold spaced, fresh. induction l as [|p l IH]; intros Hwf Hs Hfr;
    [constructor|].
  cbn [forallb] in Hwf. apply andb_prop in Hwf as [Hp Hl].
  unfold is_point in Hp.
  destruct (timestamp_of p) as [t|] eqn:Ht; [|discriminate].
  cbn [stamps map] in Hs |- *. rewrite Ht in Hs |- *.
  inversion Hs as [|? ? Hs' Hgap]; subst.
  destruct l as [|q l'].
  - cbn [map last] in Hfr. rewrite Ht in Hfr.
    apply Z.leb_gt in Hfr. repeat constructor. lia.
  - assert (Forall (fun a => a + hour < now) (stamps (q :: l'))) as Hrest
      by (apply IH; assumption).
    constructor; [|exact Hrest].
    cbn [stamps map] in Hgap, Hrest.
    inversion Hgap as [|? ? Hpq _]; subst.
    inversion Hrest as [|? ? Hq _]; subst.
    pose proof hour_pos. lia.
Qed.

Lemma Forall_filter_weaken (P : Z -> Prop) (f : Z -> bool) (l : list Z) :
  Forall P l -> Forall P (filter f l).
Proof.
  intro H. apply Forall_forall. intros x Hx. apply filter_In in Hx as [Hx _].
  rewrite Forall_forall in H. now apply H.
Qed.

(** The series an accepted sample leaves behind. *)
Lemma appended_series (now now' : Z) (v : json) (series : list json) :
  forallb is_point series = true -> spaced series ->
  fresh now series = false -> now <= now' ->
  let series' := retained (now' - week) series ++ [point now' v] in
  forallb is_point series' = true
  /\ spaced series'
  /\ Forall (fun t => now' - week < t <= now') (stamps series').
Proof.
  intros Hwf Hs Hfr Hle series'.
  pose proof (stale_series_bound now series Hwf Hs Hfr) as Hold.
  pose proof hour_pos as Hh.
  assert (Forall (fun a => a + hour < now')
            (stamps (retained (now' - week) series))) as Hkept.
  { rewrite stamps_retained by exact Hwf. apply Forall_filter_weaken.
    eapply Forall_impl; [|exact Hold]. simpl. intros; lia. }
  subst series'. split; [|split].
  - rewrite forallb_app, retained_points. reflexivity.
  - unfold spaced. rewrite stamps_app. apply sorted_snoc.
    + now apply spaced_retained.
    + exact Hkept.
  - rewrite stamps_app. apply Forall_app. split.
    + rewrite stamps_retained by exact Hwf.
      apply Forall_forall. intros t Ht. apply filter_In in Ht as [Hin Hlt].
      apply Z.ltb_lt in Hlt. rewrite Forall_forall in Hold.
      specialize (Hold t Hin). lia.
    + repeat constructor; pose proof week_pos; simpl; lia.
Qed.

Section StoreMore.
Variable JSON_parse : string -> option json.
Variable JSON_stringify : json -> string.
Variable ToNumber_exotic : json -> option Z.

#[local] Abbreviation loadHistory := (loadHistory JSON_parse).
#[local] Abbreviation addHistoryPoint :=
  (addHistoryPoint JSON_parse JSON_stringify ToNumber_exotic).
#[local] Abbreviation track := (track JSON_parse JSON_stringify ToNumber_exotic).
#[local] Abbreviation newer_than := (newer_than ToNumber_exotic).

(** The sampling block with its two readings of the clock. *)
Lemma track_clocks (key : series_key) (v : json) (now now' : Z) (d : disk)
    (fields : list (string * json)) (series : list json) :
  loadHistory d = JObj fields ->
  current_series (get fields (key_name key)) = Some series ->
  forallb is_point series = true ->
  track key v now now' d
  = Ok (if fresh now series then d
        else Some (JSON_stringify
                     (JObj (set fields (key_name key)
                              (JArr (retained (now' - week) series
                                     ++ [point now' v])))))).
Proof.
  intros Hload Hcur Hwf. unfold History.track. rewrite Hload.
  assert (lastPoint ToNumber_exotic key (JObj fields)
          = Ok (last (map Some series) undefined)) as ->.
  { unfold lastPoint. cbn [field_of bind]. unfold current_series in Hcur.
    destruct (get fields (key_name key)) as [[| [] | n | s | l | f]|];
      cbn [truthy] in Hcur; try discriminate;
      try (injection Hcur as <-; reflexivity).
    - destruct (n =? 0); [|discriminate]. injection Hcur as <-. reflexivity.
    - destruct s as [|c s]; [|discriminate]. injection Hcur as <-. reflexivity. }
  cbn [bind]. rewrite (due_last ToNumber_exotic now series Hwf). cbn [bind].
  destruct (fresh now series); cbn [negb]; [reflexivity|].
  rewrite (@addHistoryPoint_object JSON_parse JSON_stringify ToNumber_exotic
             key v now' d fields Hload), Hcur.
  now rewrite (filterM_points ToNumber_exotic (now' - week) series Hwf).
Qed.

(** X10: sampling keeps the stored points more than an hour apart.  On a
    mapping whose series is well formed and so spaced, a sample whose
    clock readings are [now <= now'] leaves the file alone or writes a
    series that is again well formed and spaced, with the point
    [{timestamp: now', value: v}] last. *)
Theorem track_keeps_spacing (key : series_key) (v : json) (now now' : Z)
    (d : disk) (fields : list (string * json)) (series : list json) :
  loadHistory d = JObj fields ->
  current_series (get fields (key_name key)) = Some series ->
  forallb is_point series = true ->
  spaced series ->
  now <= now' ->
  exists series',
    track key v now now' d
    = Ok (if fresh now series then d
          else Some (JSON_stringify
                       (JObj (set fields (key_name key) (JArr series')))))
    /\ series' = (if fresh now series then series
                  else retained (now' - week) series ++ [point now' v])
    /\ forallb is_point series' = true
    /\ spaced series'.
Proof.
  intros Hload Hcur Hwf Hs Hle.
  pose proof (track_clocks key v now now' d fields series Hload Hcur Hwf)
    as Htrack.
  destruct (fresh now series) eqn:Hfr.
  - exists series. repeat split; assumption.
  - destruct (appended_series now now' v series Hwf Hs Hfr Hle) as (Hwf' & Hs' & _).
    exists (retained (now' - week) series ++ [point now' v]).
    repeat split; assumption.
Qed.

(** X11: the week of retention holds at most 168 hourly points.  When
    the throttle accepts a sample on a well-formed, spaced series, the
    series written has at most 168 points, all stamped within the week
    that ends at the new point. *)
Theorem track_at_most_168_points (key : series_key) (v : json) (now now' : Z)
    (d : disk) (fields : list (string * json)) (series : list json) :
  loadHistory d = JObj fields ->
  current_series (get fields (key_name key)) = Some series ->
  forallb is_point series = true ->
  spaced series ->
  now <= now' ->
  fresh now series = false ->
  exists series',
    track key v now now' d
    = Ok (Some (JSON_stringify
                  (JObj (set fields (key_name key) (JArr series')))))
    /\ (List.length series' <= 168)%nat
    /\ Forall (fun t => now' - week < t <= now') (stamps series').
Proof.
  intros Hload Hcur Hwf Hs Hle Hfr.
  pose proof (track_clocks key v now now' d fields series Hload Hcur Hwf)
    as Htrack.
  rewrite Hfr in Htrack.
  destruct (appended_series now now' v series Hwf Hs Hfr Hle) as (_ & Hs' & Hin).
  exists (retained (now' - week) series ++ [point now' v]).
  split; [exact Htrack|]. split; [|exact Hin].
  unfold stamps in Hin. unfold spaced, stamps in Hs'.
  rewrite <- (length_map (fun p => match timestamp_of p with
                                   | Some t => t
                                   | None => 0
                                   end)).
  apply (gap_count (now' - week) now'); [exact Hs'|exact Hin|lia].
Qed.

Lemma filterM_throws (keep : json -> result bool) (l : list json) (p : json)
    (e : exn) :
  In p l -> keep p = Throw e -> filterM keep l = Throw TypeError.
Proof.
  intros Hin Hp. induction l as [|q l IH]; [destruct Hin|].
  simpl. destruct Hin as [->|Hin].
  - rewrite Hp. now destruct e.
  - destruct (keep q) as [b|[]]; simpl; [|reflexivity].
    now rewrite (IH Hin).
Qed.

(** X12: [addHistoryPoint] throws, and so writes nothing, on a mapping
    whose field for the key is truthy but not an array (there is no
    [push]), or is an array holding a [null] (reading its [timestamp]
    fails). *)
Theorem addHistoryPoint_malformed_series (key : series_key) (v : json)
    (now : Z) (d : disk) (fields : list (string * json)) :
  loadHistory d = JObj fields ->
  (current_series (get fields (key_name key)) = None
   \/ exists series, get fields (key_name key) = Some (JArr series)
                     /\ In JNull series) ->
  addHistoryPoint key v now d = Throw TypeError.
Proof.
  intros Hload Hbad.
  rewrite (@addHistoryPoint_object JSON_parse JSON_stringify ToNumber_exotic
             key v now d fields Hload).
  destruct Hbad as [-> | (series & Hget & Hnull)]; [reflexivity|].
  rewrite Hget. cbn [current_series].
  now rewrite (filterM_throws (newer_than (now - week)) series JNull TypeError
               Hnull eq_refl).
Qed.

(** X13: on a snapshot that is an array the throttle never engages and
    nothing is stored: every sample writes the array back as it was. *)
Theorem track_array_snapshot (key : series_key) (v : json) (now now' : Z)
    (d : disk) (items : list json) :
  loadHistory d = JArr items ->
  track key v now now' d = Ok (Some (JSON_stringify (JArr items))).
Proof.
  intro Hload. unfold History.track, History.addHistoryPoint, lastPoint.
  rewrite Hload. reflexivity.
Qed.

Lemma last_map_snoc (l : list json) (x : json) :
  last (map Some (l ++ [x])) undefined = Some x.
Proof. rewrite map_app. cbn [map]. apply last_snoc. Qed.

(** X14: a sample that was stored is what the next request reads.  On a
    mapping whose series is well formed, [addHistoryPoint] completes, and
    given that the text it wrote parses back to the value printed,
    [/api/history] then returns the mapping written, the last point of the
    series is [{timestamp: now, value: v}], and every other field is as
    it was. *)
Theorem history_reads_written_point (key : series_key) (v : json) (now : Z)
    (d : disk) (fields : list (string * json)) (series : list json) :
  loadHistory d = JObj fields ->
  current_series (get fields (key_name key)) = Some series ->
  forallb is_point series = true ->
  let fields' :=
    set fields (key_name key)
      (JArr (retained (now - week) series ++ [point now v])) in
  JSON_parse (JSON_stringify (JObj fields')) = Some (JObj fields') ->
  addHistoryPoint key v now d = Ok (Some (JSON_stringify (JObj fields')))
  /\ Handlers.history_handler JSON_parse (Some (JSON_stringify (JObj fields')))
     = JObj fields'
  /\ lastPoint ToNumber_exotic key (JObj fields') = Ok (Some (point now v))
  /\ forall other, other <> key_name key ->
                   get fields' other = get fields other.
Proof.
  intros Hload Hcur Hwf fields' Hrt. split; [|split; [|split]].
  - rewrite (@addHistoryPoint_object JSON_parse JSON_stringify ToNumber_exotic
               key v now d fields Hload), Hcur.
    now rewrite (filterM_points ToNumber_exotic (now - week) series Hwf).
  - unfold Handlers.history_handler. simpl. now rewrite Hrt.
  - unfold lastPoint, fields'. cbn [field_of bind]. rewrite get_set_same.
    cbn [last_element]. now rewrite last_map_snoc.
  - intros other Hne. now apply get_set_other.
Qed.

End StoreMore.

(** *** On concrete snapshots *)

Lemma track_keeps_spacing_witness :
  load two_samples_disk = JObj two_samples_fields
  /\ current_series (get two_samples_fields "trust") = Some two_samples
  /\ forallb is_point two_samples = true
  /\ spaced two_samples
  /\ 11000000 <= 11000005
  /\ exists series',
       sample trust (JNum 60) 11000000 11000005 two_samples_disk
       = Ok (Some (JsonText.stringify
                     (JObj (set two_samples_fields "trust" (JArr series')))))
       /\ series' = two_samples ++ [point 11000005 (JNum 60)]
       /\ forallb is_point series' = true
       /\ spaced series'.
Proof.
  assert (load two_samples_disk = JObj two_samples_fields) as Hl
    by (vm_compute; reflexivity).
  assert (current_series (get two_samples_fields "trust") = Some two_samples)
    as Hc by reflexivity.
  assert (forallb is_point two_samples = true) as Hw by reflexivity.
  assert (spaced two_samples) as Hs
    by (unfold spaced; repeat constructor; vm_compute; reflexivity).
  assert (11000000 <= 11000005) as Hle by lia.
  split; [exact Hl|]. split; [exact Hc|]. split; [exact Hw|].
  split; [exact Hs|]. split; [exact Hle|].
  exact (@track_keeps_spacing JsonText.parse JsonText.stringify
           JsonText.to_number_nan trust (JNum 60) 11000000 11000005
           two_samples_disk two_samples_fields two_samples Hl Hc Hw Hs Hle).
Defined.

Lemma track_at_most_168_points_witness :
  load two_samples_disk = JObj two_samples_fields
  /\ spaced two_samples
  /\ fresh 11000000 two_samples = false
  /\ exists series',
       sample trust (JNum 60) 11000000 11000005 two_samples_disk
       = Ok (Some (JsonText.stringify
                     (JObj (set two_samples_fields "trust" (JArr series')))))
       /\ (List.length series' <= 168)%nat
       /\ Forall (fun t => 11000005 - week < t <= 11000005) (stamps series').
Proof.
  assert (load two_samples_disk = JObj two_samples_fields) as Hl
    by (vm_compute; reflexivity).
  assert (current_series (get two_samples_fields "trust") = Some two_samples)
    as Hc by reflexivity.
  assert (forallb is_point two_samples = true) as Hw by reflexivity.
  assert (spaced two_samples) as Hs
    by (unfold spaced; repeat constructor; vm_compute; reflexivity).
  assert (11000000 <= 11000005) as Hle by lia.
  assert (fresh 11000000 two_samples = false) as Hfr by reflexivity.
  split; [exact Hl|]. split; [exact Hs|]. split; [exact Hfr|].
  exact (@track_at_most_168_points JsonText.parse JsonText.stringify
           JsonText.to_number_nan trust (JNum 60) 11000000 11000005
           two_samples_disk two_samples_fields two_samples
           Hl Hc Hw Hs Hle Hfr).
Defined.

Lemma addHistoryPoint_malformed_series_witness :
  load (Some (JsonText.stringify (JObj [("wallet", JArr [JNull])])))
  = JObj [("wallet", JArr [JNull])]
  /\ (current_series (get [("wallet", JArr [JNull])] "wallet") = None
      \/ exists series,
           get [("wallet", JArr [JNull])] "wallet" = Some (JArr series)
           /\ In JNull series)
  /\ add wallet (JNum 1) a_day
       (Some (JsonText.stringify (JObj [("wallet", JArr [JNull])])))
     = Throw TypeError.
Proof.
  assert (load (Some (JsonText.stringify (JObj [("wallet", JArr [JNull])])))
          = JObj [("wallet", JArr [JNull])]) as Hl by (vm_compute; reflexivity).
  assert (current_series (get [("wallet", JArr [JNull])] "wallet") = None
          \/ exists series,
               get [("wallet", JArr [JNull])] "wallet" = Some (JArr series)
               /\ In JNull series) as Hbad
    by (right; exists [JNull]; split; [reflexivity | now left]).
  split; [exact Hl|]. split; [exact Hbad|].
  exact (@addHistoryPoint_malformed_series JsonText.parse JsonText.stringify
           JsonText.to_number_nan wallet (JNum 1) a_day _ _ Hl Hbad).
Defined.

(** A number under the key has no [push]. *)
Example number_series :
  add wallet (JNum 1) a_day
    (Some (JsonText.stringify (JObj [("wallet", JNum 5)])))
  = Throw TypeError.
Proof. vm_compute; reflexivity. Qed.

Lemma track_array_snapshot_witness :
  load (Some "[1]") = JArr [JNum 1]
  /\ sample wallet (JNum 5) a_day a_day (Some "[1]")
     = Ok (Some (JsonText.stringify (JArr [JNum 1]))).
Proof.
  assert (load (Some "[1]") = JArr [JNum 1]) as Hl by (vm_compute; reflexivity).
  split; [exact Hl|].
  exact (@track_array_snapshot JsonText.parse JsonText.stringify
           JsonText.to_number_nan wallet (JNum 5) a_day a_day (Some "[1]")
           [JNum 1] Hl).
Defined.

Lemma history_reads_written_point_witness :
  load (Some trust_at_0) = JObj trust_at_0_fields
  /\ current_series (get trust_at_0_fields "wallet") = Some []
  /\ JsonText.parse (JsonText.stringify after_wallet_sample)
     = Some after_wallet_sample
  /\ add wallet (JNum 5) a_day (Some trust_at_0)
     = Ok (Some (JsonText.stringify after_wallet_sample))
  /\ Handlers.history_handler JsonText.parse
       (Some (JsonText.stringify after_wallet_sample))
     = after_wallet_sample
  /\ lastPoint JsonText.to_number_nan wallet after_wallet_sample
     = Ok (Some (point a_day (JNum 5))).
Proof.
  assert (load (Some trust_at_0) = JObj trust_at_0_fields) as Hl
    by (vm_compute; reflexivity).
  assert (current_series (get trust_at_0_fields "wallet") = Some []) as Hc
    by reflexivity.
  assert (JsonText.parse (JsonText.stringify after_wallet_sample)
          = Some after_wallet_sample) as Hrt by (vm_compute; reflexivity).
  split; [exact Hl|]. split; [exact Hc|]. split; [exact Hrt|].
  destruct (@history_reads_written_point JsonText.parse JsonText.stringify
              JsonText.to_number_nan wallet (JNum 5) a_day (Some trust_at_0)
              trust_at_0_fields [] Hl Hc eq_refl Hrt) as (Ha & Hh & Hp & _).
  split; [exact Ha|]. split; [exact Hh | exact Hp].
Defined.

End HistoryMore.

(** ** Request handlers *)

Module HandlersMore.
Import Classifier Js History Collector Handlers Invariants.
Import Samples MoreSamples HistorySpec CollectorSpec.

Section WithStore.
Variable JSON_parse : string -> option json.
Variable JSON_stringify : json -> string.
Variable ToNumber_exotic : json -> option Z.

#[local] Abbreviation loadHistory := (loadHistory JSON_parse).
#[local] Abbreviation track := (track JSON_parse JSON_stringify ToNumber_exotic).
#[local] Abbreviation wallet_handler :=
  (wallet_handler JSON_parse JSON_stringify ToNumber_exotic).
#[local] Abbreviation trust_handler :=
  (trust_handler JSON_parse JSON_stringify ToNumber_exotic).

(** The sampling block throws on a snapshot that is not an object. *)
Lemma track_non_object (key : series_key) (value : json) (now now' : Z)
    (d : disk) :
  is_object (loadHistory d) = false ->
  track key value now now' d = Throw TypeError.
Proof.
  intro Hv. unfold History.track, History.addHistoryPoint, lastPoint.
  destruct (loadHistory d); try discriminate Hv; reflexivity.
Qed.

(** X15: with a wallet configured, a balance obtained and a snapshot
    that is a mapping with a well-formed wallet series, [/api/wallet]
    answers with the balance, and the file is left alone when the last
    wallet point is at most an hour old and otherwise gains exactly the
    point [{timestamp: now', value: balanceSats}]. *)
Theorem wallet_handler_reports_balance (walletConfig : jsval)
    (balance : Balance) (now now' : Z) (d : disk)
    (fields : list (string * json)) (series : list json) :
  truthy (opt_field walletConfig "nwcUrl") = true ->
  loadHistory d = JObj fields ->
  current_series (get fields "wallet") = Some series ->
  forallb is_point series = true ->
  wallet_handler walletConfig (Resolved balance) now now' d
  = (WalletBalance balance,
     if fresh now series then d
     else Some (JSON_stringify
                  (JObj (set fields "wallet"
                           (JArr (retained (now' - week) series
                                  ++ [point now' (balanceSats balance)])))))).
Proof.
  intros Hcfg Hload Hcur Hwf. unfold Handlers.wallet_handler, track_wallet.
  rewrite Hcfg. cbn [negb].
  rewrite (HistoryMore.track_clocks JSON_parse JSON_stringify ToNumber_exotic
             wallet (balanceSats balance) now now' d fields series
             Hload Hcur Hwf).
  reflexivity.
Qed.

(** X16: a snapshot file holding JSON that is not an object makes
    [/api/wallet] answer with an error although the balance was
    obtained, and the file stays as it is. *)
Theorem wallet_handler_non_object_snapshot (walletConfig : jsval)
    (balance : Balance) (now now' : Z) (text : string) (v : json) :
  truthy (opt_field walletConfig "nwcUrl") = true ->
  JSON_parse text = Some v ->
  is_object v = false ->
  wallet_handler walletConfig (Resolved balance) now now' (Some text)
  = (WalletError (Thrown TypeError), Some text).
Proof.
  intros Hcfg Hp Hv. unfold Handlers.wallet_handler, track_wallet.
  rewrite Hcfg. cbn [negb]. rewrite track_non_object; [reflexivity|].
  simpl. now rewrite Hp.
Qed.

(** X17: [/api/trust] stores a sample only for a defined score.  With an
    identity configured: an answer without a [score] is passed on and the
    history file is not even read, whatever it holds; an answer that is
    [null] gives an error; an answer with a score, [null] included, on a
    mapping with a well-formed trust series is passed on and sampled
    under the hourly throttle. *)
Theorem trust_handler_samples_defined_score (nostrKeys : jsval)
    (now now' : Z) (d : disk) :
  truthy nostrKeys = true ->
  (forall data, field_of data "score" = Ok undefined ->
                trust_handler nostrKeys (Resolved data) now now' d
                = (TrustData data, d))
  /\ trust_handler nostrKeys (Resolved JNull) now now' d
     = (TrustError (Thrown TypeError), d)
  /\ (forall data score fields series,
        field_of data "score" = Ok (Some score) ->
        loadHistory d = JObj fields ->
        current_series (get fields "trust") = Some series ->
        forallb is_point series = true ->
        trust_handler nostrKeys (Resolved data) now now' d
        = (TrustData data,
           if fresh now series then d
           else Some (JSON_stringify
                        (JObj (set fields "trust"
                                 (JArr (retained (now' - week) series
                                        ++ [point now' score])))))))
  /\ (forall data score,
        field_of data "score" = Ok (Some score) ->
        is_object (loadHistory d) = false ->
        trust_handler nostrKeys (Resolved data) now now' d
        = (TrustError (Thrown TypeError), d)).
Proof.
  intro Hk. unfold Handlers.trust_handler. rewrite Hk. cbn [negb].
  split; [|split; [|split]].
  - intros data Hs. now rewrite Hs.
  - reflexivity.
  - intros data score fields series Hs Hload Hcur Hwf. rewrite Hs.
    cbn [track_trust].
    rewrite (HistoryMore.track_clocks JSON_parse JSON_stringify ToNumber_exotic
               trust score now now' d fields series Hload Hcur Hwf).
    reflexivity.
  - intros data score Hs Hv. rewrite Hs. cbn [track_trust].
    now rewrite track_non_object.
Qed.

(** X20: when a configuration file is missing, unreadable or not JSON,
    the handlers that need it answer with the configuration error
    whatever their collaborators would have returned, and the history
    file is not touched: [/api/wallet] without a wallet configuration,
    [/api/trust] and [/api/identity] without the key file. *)
Theorem missing_configuration (file : disk) (call : outcome Balance)
    (fetched : outcome json) (npubEncode : jsval -> result string)
    (other : jsval) (now now' : Z) (d : disk) :
  (file = None \/ exists text, file = Some text /\ JSON_parse text = None) ->
  wallet_handler (load_config JSON_parse file) call now now' d
  = (WalletError (Message "No wallet configured"), d)
  /\ trust_handler (load_config JSON_parse file) fetched now now' d
     = (TrustError (Message "No identity configured"), d)
  /\ identity_handler npubEncode (load_config JSON_parse file) other
     = Ok (IdentityError "No identity configured").
Proof.
  intro Hbad.
  assert (load_config JSON_parse file = Some JNull) as ->.
  { destruct Hbad as [->|(text & -> & Hp)]; simpl; [reflexivity|].
    now rewrite Hp. }
  repeat split.
Qed.

End WithStore.

Lemma missing_configuration_witness :
  (Some corrupt_text = None
   \/ exists text, Some corrupt_text = Some text /\ JsonText.parse text = None)
  /\ wallet_handler JsonText.parse JsonText.stringify JsonText.to_number_nan
       (load_config JsonText.parse (Some corrupt_text)) (Resolved balance_21)
       a_day a_day (Some trust_at_0)
     = (WalletError (Message "No wallet configured"), Some trust_at_0).
Proof.
  assert (Some corrupt_text = None
          \/ exists text, Some corrupt_text = Some text
                          /\ JsonText.parse text = None) as H
    by (right; exists corrupt_text; split; reflexivity).
  split; [exact H|].
  exact (proj1 (missing_configuration JsonText.parse JsonText.stringify
                  JsonText.to_number_nan (Some corrupt_text)
                  (Resolved balance_21) (Rejected "down") npub_of None
                  a_day a_day (Some trust_at_0) H)).
Defined.

Lemma wallet_handler_reports_balance_witness :
  truthy (opt_field wallet_config "nwcUrl") = true
  /\ load (Some trust_at_0) = JObj trust_at_0_fields
  /\ current_series (get trust_at_0_fields "wallet") = Some []
  /\ wallet_handler JsonText.parse JsonText.stringify JsonText.to_number_nan
       wallet_config (Resolved balance_21) a_day (a_day + 2) (Some trust_at_0)
     = (WalletBalance balance_21,
        Some (JsonText.stringify
                (JObj (set trust_at_0_fields "wallet"
                         (JArr [point (a_day + 2) (JNum 21)]))))).
Proof.
  assert (truthy (opt_field wallet_config "nwcUrl") = true) as Hcfg
    by reflexivity.
  assert (load (Some trust_at_0) = JObj trust_at_0_fields) as Hl
    by (vm_compute; reflexivity).
  assert (current_series (get trust_at_0_fields "wallet") = Some []) as Hc
    by reflexivity.
  split; [exact Hcfg|]. split; [exact Hl|]. split; [exact Hc|].
  exact (wallet_handler_reports_balance JsonText.parse JsonText.stringify
           JsonText.to_number_nan wallet_config balance_21 a_day (a_day + 2)
           (Some trust_at_0) trust_at_0_fields [] Hcfg Hl Hc eq_refl).
Defined.

Lemma wallet_handler_non_object_snapshot_witness :
  truthy (opt_field wallet_config "nwcUrl") = true
  /\ JsonText.parse "null" = Some JNull
  /\ is_object JNull = false
  /\ wallet_handler JsonText.parse JsonText.stringify JsonText.to_number_nan
       wallet_config (Resolved balance_21) a_day a_day (Some "null")
     = (WalletError (Thrown TypeError), Some "null").
Proof.
  assert (truthy (opt_field wallet_config "nwcUrl") = true) as Hcfg
    by reflexivity.
  assert (JsonText.parse "null" = Some JNull) as Hp by reflexivity.
  assert (is_object JNull = false) as Hv by reflexivity.
  split; [exact Hcfg|]. split; [exact Hp|]. split; [exact Hv|].
  exact (wallet_handler_non_object_snapshot JsonText.parse JsonText.stringify
           JsonText.to_number_nan wallet_config balance_21 a_day a_day
           "null" JNull Hcfg Hp Hv).
Defined.

Lemma trust_handler_samples_defined_score_witness :
  truthy nostr_keys = true
  /\ trust_handler JsonText.parse JsonText.stringify JsonText.to_number_nan
       nostr_keys (Resolved (JObj [("error", JStr "unknown")])) a_day a_day
       (Some "null")
     = (TrustData (JObj [("error", JStr "unknown")]), Some "null")
  /\ trust_handler JsonText.parse JsonText.stringify JsonText.to_number_nan
       nostr_keys (Resolved (JObj [("score", JNum 60)])) 3700000 3700000
       (Some trust_at_0)
     = (TrustData (JObj [("score", JNum 60)]),
        Some (JsonText.stringify after_early_trust_sample)).
Proof.
  assert (truthy nostr_keys = true) as Hk by reflexivity.
  split; [exact Hk|].
  destruct (trust_handler_samples_defined_score JsonText.parse
              JsonText.stringify JsonText.to_number_nan nostr_keys
              a_day a_day (Some "null") Hk) as (Hnone & _).
  destruct (trust_handler_samples_defined_score JsonText.parse
              JsonText.stringify JsonText.to_number_nan nostr_keys
              3700000 3700000 (Some trust_at_0) Hk) as (_ & _ & Hsome & _).
  split; [exact (Hnone (JObj [("error", JStr "unknown")]) eq_refl)|].
  assert (load (Some trust_at_0) = JObj trust_at_0_fields) as Hl
    by (vm_compute; reflexivity).
  exact (Hsome (JObj [("score", JNum 60)]) (JNum 60) trust_at_0_fields
           [point 0 (JNum 50)] eq_refl Hl eq_refl eq_refl).
Defined.

(** X18: an identity answer never carries a falsy lightning address: it
    is the configured one when that is truthy and ["Not configured"]
    otherwise (no wallet configuration, no such field, or an empty one);
    the public key is passed on as the key file has it. *)
Theorem identity_address_never_falsy (npubEncode : jsval -> result string)
    (nostrKeys walletConfig : jsval) (i : Identity) :
  identity_handler npubEncode nostrKeys walletConfig = Ok (IdentityOk i) ->
  truthy (Some (lightningAddress i)) = true
  /\ (truthy (opt_field walletConfig "lightningAddress") = true ->
      Some (lightningAddress i) = opt_field walletConfig "lightningAddress")
  /\ (truthy (opt_field walletConfig "lightningAddress") = false ->
      lightningAddress i = JStr "Not configured")
  /\ id_pubkey i = opt_field nostrKeys "publicKeyHex"
  /\ npubEncode (id_pubkey i) = Ok (id_npub i).
Proof.
  unfold identity_handler. destruct (truthy nostrKeys); cbn [negb];
    [|discriminate].
  destruct (npubEncode (opt_field nostrKeys "publicKeyHex")) as [npub|] eqn:En;
    cbn [bind]; [|discriminate].
  intros [= <-]. cbn [lightningAddress id_pubkey id_npub].
  destruct (opt_field walletConfig "lightningAddress") as [a|] eqn:Ea.
  - destruct (truthy (Some a)) eqn:Ht; repeat split; auto; discriminate.
  - repeat split; auto; discriminate.
Qed.

Lemma identity_address_never_falsy_witness :
  exists i,
    identity_handler npub_of nostr_keys (Some (JObj [("nwcUrl", JStr "x")]))
    = Ok (IdentityOk i)
    /\ lightningAddress i = JStr "Not configured"
    /\ id_npub i = "npub1ab12".
Proof.
  eexists. split; [reflexivity|].
  destruct (identity_address_never_falsy npub_of nostr_keys
              (Some (JObj [("nwcUrl", JStr "x")])) _ eq_refl)
    as (_ & _ & Hdefault & _).
  split; [exact (Hdefault eq_refl) | reflexivity].
Defined.

(** X19: once connected, [/api/attestations] answers when, and only
    when, an end-of-stream or timeout callback has run, and then with the
    classification of exactly the events delivered before the first of
    them; events delivered later do not reach the response. *)
Theorem attestations_handler_settles (me : string) (cs : list callback)
    (s : state) :
  run cs init = Some s ->
  attestations_handler (Some me) (Resolved cs)
  = if existsb is_end cs
    then Some (AttestationsOk (classify (events_before_end cs) me))
    else None.
Proof.
  intro H. unfold attestations_handler. rewrite H.
  rewrite (@run_resolved cs init s eq_refl H).
  now destruct (existsb is_end cs).
Qed.

Lemma attestations_handler_settles_witness :
  let late := ev "late" "me" 99 in
  let cs := map OnEvent three_events ++ [OnEose; OnEvent late] in
  (exists s, run cs init = Some s)
  /\ attestations_handler (Some "me") (Resolved cs)
     = Some (AttestationsOk (classify three_events "me")).
Proof.
  intros late cs.
  assert (run cs init
          = Some {| collected := three_events ++ [late]; timer_armed := false;
                    closes := 1; resolved := Some three_events |}) as Hrun
    by reflexivity.
  split; [eexists; exact Hrun|].
  exact (attestations_handler_settles "me" cs _ Hrun).
Defined.

End HandlersMore.
